(** * p5.core.shape: the PShape class

    A shallow embedding of [src/p5/core/shape.py] and the properties of its
    vertex store, edge cache, triangulation cache and edit session.

    Python objects are mutable and an exception leaves every assignment made
    before it in place, so methods are computations in a state monad whose
    state survives a raised exception. *)

From Stdlib Require Import ZArith Lia Ascii.
From stdpp Require Import base option list strings gmap.

Local Open Scope Z_scope.

(** ** Values *)

(** A point as the caller passes it, a tuple or list of numbers, is a
    [list Z]. *)

(** The vertex arrays the class builds.  [np.array([])] has one axis and
    shape [(0,)]; [np.array(rows)] for a non-empty list of equally long rows
    has two axes and shape [(len rows, width)]. *)
Inductive ndarray : Type :=
  | NdEmpty
  | NdRows (rows : list (list Z)).

(** Integer index arrays are lists: one pair per edge, one triple per face.
    The empty [np.array([])] is the empty list.  A Python value that is such
    an array or [None] is an [option]. *)

Inductive exn : Type :=
  | ValueError (msg : string)
  | IndexError
  | TypeError
  | AttributeError
  | ExternalError.

Inductive outcome (A : Type) : Type :=
  | Ok (a : A)
  | Raise (e : exn).
Arguments Ok {A} a.
Arguments Raise {A} e.

(** What [geometry.Triangulation(vertices, edges)] exposes once its
    [triangulate()] has returned: [pts] is always an array; [edges] and
    [tris] are arrays or something else ([None] here). *)
Record Triangulation : Type := mkTriangulation {
  pts : ndarray;
  tri_edges_attr : option (list (Z * Z));
  tris : option (list (Z * Z * Z))
}.

(** ** The object *)

(** The fields of [PShape] that the vertex store, the caches and the edit
    session read or write.  Colours, matrices, [visible] and [children] are
    plain storage that none of these methods touch. *)
Record PShape : Type := mkPShape {
  _vertices : ndarray;
  _edges : option (list (Z * Z));
  _outline : option (list (Z * Z));
  _outline_vertices : option ndarray;
  attribs : gset string;
  _in_edit_mode : bool;
  _vertex_cache : option (list (list Z));
  _tri : option Triangulation;
  _tri_required : bool;
  _tri_vertices : option ndarray;
  _tri_edges : option (list (Z * Z));
  _tri_faces : option (list (Z * Z * Z))
}.

(** Attribute assignments [self.f = v]. *)
Definition with_vertices (v : ndarray) (s : PShape) : PShape :=
  mkPShape v (_edges s) (_outline s) (_outline_vertices s) (attribs s)
    (_in_edit_mode s) (_vertex_cache s) (_tri s) (_tri_required s)
    (_tri_vertices s) (_tri_edges s) (_tri_faces s).

Definition with_edges (v : option (list (Z * Z))) (s : PShape) : PShape :=
  mkPShape (_vertices s) v (_outline s) (_outline_vertices s) (attribs s)
    (_in_edit_mode s) (_vertex_cache s) (_tri s) (_tri_required s)
    (_tri_vertices s) (_tri_edges s) (_tri_faces s).

Definition with_outline (v : option (list (Z * Z))) (s : PShape) : PShape :=
  mkPShape (_vertices s) (_edges s) v (_outline_vertices s) (attribs s)
    (_in_edit_mode s) (_vertex_cache s) (_tri s) (_tri_required s)
    (_tri_vertices s) (_tri_edges s) (_tri_faces s).

Definition with_outline_vertices (v : option ndarray) (s : PShape) : PShape :=
  mkPShape (_vertices s) (_edges s) (_outline s) v (attribs s)
    (_in_edit_mode s) (_vertex_cache s) (_tri s) (_tri_required s)
    (_tri_vertices s) (_tri_edges s) (_tri_faces s).

Definition with_in_edit_mode (v : bool) (s : PShape) : PShape :=
  mkPShape (_vertices s) (_edges s) (_outline s) (_outline_vertices s)
    (attribs s) v (_vertex_cache s) (_tri s) (_tri_required s)
    (_tri_vertices s) (_tri_edges s) (_tri_faces s).

Definition with_vertex_cache (v : option (list (list Z))) (s : PShape)
  : PShape :=
  mkPShape (_vertices s) (_edges s) (_outline s) (_outline_vertices s)
    (attribs s) (_in_edit_mode s) v (_tri s) (_tri_required s)
    (_tri_vertices s) (_tri_edges s) (_tri_faces s).

Definition with_tri (v : option Triangulation) (s : PShape) : PShape :=
  mkPShape (_vertices s) (_edges s) (_outline s) (_outline_vertices s)
    (attribs s) (_in_edit_mode s) (_vertex_cache s) v (_tri_required s)
    (_tri_vertices s) (_tri_edges s) (_tri_faces s).

Definition with_tri_vertices (v : option ndarray) (s : PShape) : PShape :=
  mkPShape (_vertices s) (_edges s) (_outline s) (_outline_vertices s)
    (attribs s) (_in_edit_mode s) (_vertex_cache s) (_tri s) (_tri_required s)
    v (_tri_edges s) (_tri_faces s).

Definition with_tri_edges (v : option (list (Z * Z))) (s : PShape) : PShape :=
  mkPShape (_vertices s) (_edges s) (_outline s) (_outline_vertices s)
    (attribs s) (_in_edit_mode s) (_vertex_cache s) (_tri s) (_tri_required s)
    (_tri_vertices s) v (_tri_faces s).

Definition with_tri_faces (v : option (list (Z * Z * Z))) (s : PShape)
  : PShape :=
  mkPShape (_vertices s) (_edges s) (_outline s) (_outline_vertices s)
    (attribs s) (_in_edit_mode s) (_vertex_cache s) (_tri s) (_tri_required s)
    (_tri_vertices s) (_tri_edges s) v.

(** ** The monad of methods *)

(** The world a method runs in: the object, and the log of the calls made to
    the external triangulation service (arguments of each call, oldest
    first). *)
Record World : Type := mkWorld {
  self : PShape;
  tri_calls : list (ndarray * option (list (Z * Z)))
}.

Definition M (A : Type) : Type := World → outcome A * World.

Definition ret {A} (a : A) : M A := λ w, (Ok a, w).
Definition raise {A} (e : exn) : M A := λ w, (Raise e, w).
Definition bind {A B} (m : M A) (k : A → M B) : M B :=
  λ w, match m w with
       | (Ok a, w') => k a w'
       | (Raise e, w') => (Raise e, w')
       end.

Notation "x <- m ;; k" := (bind m (λ x, k))
  (at level 100, m at next level, right associativity).
Notation "m ;;; k" := (bind m (λ _, k))
  (at level 100, right associativity).

Definition read {A} (f : PShape → A) : M A := λ w, (Ok (f (self w)), w).
Definition assign (f : PShape → PShape) : M unit :=
  λ w, (Ok tt, mkWorld (f (self w)) (tri_calls w)).
Definition lift {A} (o : outcome A) : M A := λ w, (o, w).

(** ** Vertex store *)

(** [len(v)] as a Python integer. *)
Definition len {A} (l : list A) : Z := Z.of_nat (length l).

(** [_sanitize_vertex_list]: the loop over [vertices], with [sanitized] as
    the accumulator. *)
Fixpoint sanitize_loop (tdim sdim : nat) (vertices sanitized : list (list Z))
  : outcome (list (list Z)) :=
  match vertices with
  | [] => Ok sanitized
  | v :: rest =>
      if ((Nat.max tdim sdim <? length v) || (length v <? Nat.min tdim sdim))%nat
      then Raise (ValueError "unexpected vertex dimension")
      else if (sdim <? tdim)%nat
      then sanitize_loop tdim sdim rest
             (sanitized ++ [v ++ replicate (tdim - sdim) 0])
      else if (tdim <? sdim)%nat
      then sanitize_loop tdim sdim rest (sanitized ++ [take tdim v])
      else sanitize_loop tdim sdim rest (sanitized ++ [v])
  end.

Definition _sanitize_vertex_list (vertices : list (list Z)) (tdim sdim : nat)
  : outcome (list (list Z)) :=
  sanitize_loop tdim sdim vertices [].

(** [np.array(sanitized)] on the rows the sanitizer hands over. *)
Definition np_array (sanitized : list (list Z)) : ndarray :=
  match sanitized with
  | [] => NdEmpty
  | _ => NdRows sanitized
  end.

(** [np.hstack([a, np.zeros((n, 1))])].  When the first array has one axis
    [hstack] joins along that axis and refuses the two-axis block of zeros;
    otherwise it appends the zero column, and the row counts must agree. *)
Definition hstack_zeros (a : ndarray) (n : Z) : outcome ndarray :=
  match a with
  | NdEmpty =>
      Raise (ValueError "all the input arrays must have same number of dimensions")
  | NdRows rows =>
      if len rows =? n then Ok (NdRows (map (λ r, r ++ [0]) rows))
      else Raise (ValueError "all the input array dimensions except for the concatenation axis must match exactly")
  end.

(** The [vertices] property. *)
Definition vertices : M ndarray := read _vertices.

Definition set_vertices (new_vertices : list (list Z)) : M unit :=
  let n := len new_vertices in
  sanitized <- lift (_sanitize_vertex_list new_vertices 2 3) ;;
  assign (with_vertices (np_array sanitized)) ;;;
  v <- read _vertices ;;
  ov <- lift (hstack_zeros v n) ;;
  assign (with_outline_vertices (Some ov)) ;;;
  assign (with_tri_vertices None) ;;;
  assign (with_tri_edges None) ;;;
  assign (with_tri_faces None).

(** ** Attributes *)

(** [attribs.lower().split()] on ASCII text: upper-case letters are folded,
    and the text is cut at runs of white space (tab to carriage return, the
    four separators 28 to 31, and the space). *)
Definition ascii_lower (c : ascii) : ascii :=
  let n := nat_of_ascii c in
  if ((65 <=? n) && (n <=? 90))%nat then ascii_of_nat (n + 32) else c.

Fixpoint lower (s : string) : string :=
  match s with
  | EmptyString => EmptyString
  | String c rest => String (ascii_lower c) (lower rest)
  end.

Definition isspace (c : ascii) : bool :=
  let n := nat_of_ascii c in
  (((9 <=? n) && (n <=? 13)) || ((28 <=? n) && (n <=? 32)))%nat.

Fixpoint split_from (word : string) (s : string) : list string :=
  match s with
  | EmptyString => if decide (word = EmptyString) then [] else [word]
  | String c rest =>
      if isspace c
      then (if decide (word = EmptyString) then split_from EmptyString rest
            else word :: split_from EmptyString rest)
      else split_from (word +:+ String c EmptyString) rest
  end.

Definition split (s : string) : list string := split_from EmptyString s.

Definition has (a : string) (s : PShape) : bool := bool_decide (a ∈ attribs s).
Arguments has : simpl never.

(** The [kind] property. *)
Definition kind : M string :=
  s <- read id ;;
  if has "point" s then ret "point"%string
  else if has "path" s then ret "path"%string
  else ret "poly"%string.

(** ** Topology *)

(** [n, _ = a.shape] *)
Definition unpack_shape (a : ndarray) : outcome (Z * Z) :=
  match a with
  | NdEmpty => Raise (ValueError "not enough values to unpack (expected 2, got 1)")
  | NdRows rows => Ok (len rows, match rows with r :: _ => len r | [] => 0 end)
  end.

(** [np.arange(n)] *)
Definition arange (n : Z) : list Z := seqZ 0 n.

(** [np.vstack([a, b]).transpose()] for two index vectors of equal length. *)
Definition vstack_transpose (a b : list Z) : list (Z * Z) := zip a b.

Definition _compute_poly_edges : M (list (Z * Z)) :=
  v <- read _vertices ;;
  nw <- lift (unpack_shape v) ;;
  let n := nw.1 in
  ret (vstack_transpose (arange n) (map (λ i, (i + 1) `mod` n) (arange n))).

Definition _compute_outline_edges : M (list (Z * Z)) :=
  v <- read _vertices ;;
  nw <- lift (unpack_shape v) ;;
  let n := nw.1 in
  ret (vstack_transpose (arange (n - 1))
         (map (λ i, (i + 1) `mod` n) (arange (n - 1)))).

(** The [edges] property. *)
Definition edges : M (option (list (Z * Z))) :=
  s <- read id ;;
  if has "point" s then ret (Some [])
  else
    (match _edges s with
     | None =>
         v <- read _vertices ;;
         nw <- lift (unpack_shape v) ;;
         (if has "point" s then assign (with_edges (Some []))
          else if has "path" s
          then (e <- _compute_outline_edges ;; assign (with_edges (Some e)))
          else (e <- _compute_poly_edges ;; assign (with_edges (Some e)))) ;;;
         (if has "open" s
          then (o <- _compute_outline_edges ;; assign (with_outline (Some o)))
          else (e <- read _edges ;; assign (with_outline e)))
     | Some _ => ret tt
     end) ;;;
    read _edges.

(** [_draw_outline_edges] *)
Definition _draw_outline_edges : M (option (list (Z * Z))) :=
  s <- read id ;;
  if has "open" s then read _outline else read _edges.

(** ** Edit session *)

(** The decorator [_ensure_editable], applied to the method called [name]. *)
Definition _ensure_editable {A} (name : string) (func : M A) : M A :=
  s <- read id ;;
  if negb (_in_edit_mode s)
  then raise (ValueError (name +:+ " only works in edit mode"))
  else func.

(** [edit] is a generator wrapped by [contextlib.contextmanager]: the
    statements before [yield] run when the [with] block is entered, those
    after it when the block is left normally.  An exception raised by the
    block is thrown into the generator at the [yield]; the generator has no
    handler there, so the exception leaves it at once. *)
Definition edit_enter (reset : bool) : M unit :=
  s <- read id ;;
  if _in_edit_mode s then raise (ValueError "Shape is being edited already")
  else
    assign (with_in_edit_mode true) ;;;
    (if reset then assign (with_vertices NdEmpty) else ret tt) ;;;
    assign (with_vertex_cache (Some [])).

Definition edit_exit : M unit :=
  c <- read _vertex_cache ;;
  (match c with
   | Some new_vertices => set_vertices new_vertices
   | None => raise TypeError
   end) ;;;
  assign (with_in_edit_mode false) ;;;
  assign (with_edges None).

(** [with shape.edit(reset): body] *)
Definition edit (reset : bool) (body : M unit) : M unit :=
  edit_enter reset ;;; body ;;; edit_exit.

Definition add_vertex (vertex : list Z) : M unit :=
  _ensure_editable "add_vertex"
    (c <- read _vertex_cache ;;
     match c with
     | Some cache => assign (with_vertex_cache (Some (cache ++ [vertex])))
     | None => raise AttributeError
     end).

(** [a[idx] = np.array(vertex)]: a negative index counts from the end, an
    index outside [-n, n) is an error, and the new row must have the width
    of the array. *)
Definition setitem (a : ndarray) (idx : Z) (vertex : list Z) : outcome ndarray :=
  match a with
  | NdEmpty => Raise IndexError
  | NdRows rows =>
      let n := len rows in
      if (idx <? - n) || (n <=? idx) then Raise IndexError
      else
        let i := Z.to_nat (if idx <? 0 then idx + n else idx) in
        match rows !! i with
        | Some r =>
            if len r =? len vertex then Ok (NdRows (<[i := vertex]> rows))
            else Raise (ValueError "could not broadcast input array")
        | None => Raise IndexError
        end
  end.

Definition update_vertex (idx : Z) (vertex : list Z) : M unit :=
  if negb (len vertex =? 2) then raise (ValueError "Wrong vertex dimension")
  else
    v <- read _vertices ;;
    v' <- lift (setitem v idx vertex) ;;
    assign (with_vertices v') ;;;
    assign (with_tri_vertices None) ;;;
    assign (with_tri_edges None) ;;;
    assign (with_tri_faces None) ;;;
    assign (with_edges None).

(** ** Construction *)

(** The object as [__init__] has it just before it looks at [vertices]. *)
Definition blank (attribs : string) : PShape :=
  let a : gset string := list_to_set (split (lower attribs)) in
  {| _vertices := NdEmpty;
     _edges := None;
     _outline := None;
     _outline_vertices := None;
     attribs := a;
     _in_edit_mode := false;
     _vertex_cache := None;
     _tri := None;
     _tri_required := negb (bool_decide ("point"%string ∈ a))
                      && negb (bool_decide ("path"%string ∈ a));
     _tri_vertices := None;
     _tri_edges := None;
     _tri_faces := None |}.

(** [PShape(vertices, attribs=attribs)]: the outcome of [__init__] and the
    world it leaves, with no call made to the triangulation service yet. *)
Definition __init__ (vertices : list (list Z)) (attribs : string)
  : outcome unit * World :=
  (if 0 <? len vertices then set_vertices vertices else ret tt)
    (mkWorld (blank attribs) []).

(** ** Triangulation adapter *)

Section Adapter.

(** The external service: building [geometry.Triangulation(vertices, edges)]
    and running its [triangulate()], which raise or leave the object with
    its [pts], [edges] and [tris]. *)
Variable triangulate :
  ndarray → option (list (Z * Z)) → outcome Triangulation.

(** One call of the service, entered in the log before its outcome is
    known. *)
Definition call_triangulate (v : ndarray) (e : option (list (Z * Z)))
  : M Triangulation :=
  λ w, (triangulate v e, mkWorld (self w) (tri_calls w ++ [(v, e)])).

(** [x if isinstance(x, np.ndarray) else np.array([])] *)
Definition ndarray_or_empty {A} (x : option (list A)) : list A :=
  match x with
  | Some a => a
  | None => []
  end.

Definition _retriangulate : M unit :=
  v <- vertices ;;
  e <- edges ;;
  t <- call_triangulate v e ;;
  assign (with_tri (Some t)) ;;;
  assign (with_tri_edges (Some (ndarray_or_empty (tri_edges_attr t)))) ;;;
  assign (with_tri_faces (tris t)) ;;;
  assign (with_tri_vertices (Some (pts t))) ;;;
  assign (with_tri_edges (Some (ndarray_or_empty (tri_edges_attr t)))) ;;;
  assign (with_tri_faces (Some (ndarray_or_empty (tris t)))) ;;;
  assign (with_tri_vertices (Some (pts t))).

Definition _draw_vertices : M (option ndarray) :=
  s <- read id ;;
  (if _tri_required s && bool_decide (_tri_vertices s = None)
   then _retriangulate else ret tt) ;;;
  s <- read id ;;
  if _tri_required s then ret (_tri_vertices s)
  else ret (Some (_vertices s)).

Definition _draw_outline_vertices : M (option ndarray) :=
  s <- read id ;;
  if has "open" s then _draw_vertices
  else (v <- vertices ;; ret (Some v)).

Definition _draw_edges : M (option (list (Z * Z))) :=
  s <- read id ;;
  if _tri_required s
  then
    (if bool_decide (_tri_edges s = None) then _retriangulate else ret tt) ;;;
    read _tri_edges
  else edges.

Definition _draw_faces : M (option (list (Z * Z * Z))) :=
  s <- read id ;;
  if _tri_required s
  then
    (if bool_decide (_tri_faces s = None) then _retriangulate else ret tt) ;;;
    read _tri_faces
  else ret (Some []).

End Adapter.

Arguments _retriangulate : simpl never.

(** * Vocabulary of the properties *)

(** ** Sample objects *)

Definition triangle : list (list Z) := [[0; 0]; [1; 0]; [1; 1]].
Definition square : list (list Z) := [[0; 0]; [10; 0]; [10; 10]; [0; 10]].

(** The world left by [PShape(vertices, attribs=attribs)]. *)
Definition constructed (vertices : list (list Z)) (attribs : string) : World :=
  (__init__ vertices attribs).2.

(** The world left by running [m], and its outcome. *)
Definition after {A} (m : M A) (w : World) : World := (m w).2.
Definition result {A} (m : M A) (w : World) : outcome A := (m w).1.

(** The closed ring on [n] vertices, [(i, (i+1) mod n)] for [i] in
    [0 .. n-1], and the open chain, the same pairs for [i] in [0 .. n-2]. *)
Definition ring (n : Z) : list (Z * Z) :=
  map (λ i, (i, (i + 1) `mod` n)) (seqZ 0 n).
Definition chain (n : Z) : list (Z * Z) :=
  map (λ i, (i, (i + 1) `mod` n)) (seqZ 0 (n - 1)).

(** What a recomputation stores in [_edges] and [_outline] for a shape that
    is not a point shape and holds [n] vertices. *)
Definition derived_edges (s : PShape) (n : Z) : list (Z * Z) :=
  if has "path" s then chain n else ring n.
Definition derived_outline (s : PShape) (n : Z) : list (Z * Z) :=
  if has "open" s then chain n else derived_edges s n.
Definition recomputed (n : Z) (s : PShape) : PShape :=
  with_outline (Some (derived_outline s n))
    (with_edges (Some (derived_edges s n)) s).

(** The rule for one point with the target dimension 2 and the source
    dimension 3 that the setter uses: a point of length 2 is kept, a point
    of length 3 loses its last component, any other length is refused. *)
Definition sanitize_point_rule (v : list Z) : option (list Z) :=
  if decide (length v = 2%nat) then Some v
  else if decide (length v = 3%nat) then Some (take 2 v)
  else None.

Fixpoint sanitize_rule (vertices : list (list Z)) : outcome (list (list Z)) :=
  match vertices with
  | [] => Ok []
  | v :: rest =>
      match sanitize_point_rule v with
      | None => Raise (ValueError "unexpected vertex dimension")
      | Some p =>
          match sanitize_rule rest with
          | Ok out => Ok (p :: out)
          | Raise e => Raise e
          end
      end
  end.

(** The object after a successful [self.vertices = new_vertices] that stored
    the rows [out]. *)
Definition stored (out : list (list Z)) (s : PShape) : PShape :=
  with_tri_faces None
    (with_tri_edges None
       (with_tri_vertices None
          (with_outline_vertices (Some (NdRows (map (λ r, r ++ [0]) out)))
             (with_vertices (NdRows out) s)))).

(** The object after a successful [update_vertex] that left the rows
    [rows']. *)
Definition updated (rows' : list (list Z)) (s : PShape) : PShape :=
  with_edges None
    (with_tri_faces None
       (with_tri_edges None
          (with_tri_vertices None (with_vertices (NdRows rows') s)))).

(** The object once [edit] has run up to its [yield]. *)
Definition opened (reset : bool) (s : PShape) : PShape :=
  with_vertex_cache (Some [])
    ((if reset then with_vertices NdEmpty else id) (with_in_edit_mode true s)).

(** The object once the statements after the [yield] have stored [out]. *)
Definition committed (out : list (list Z)) (s : PShape) : PShape :=
  with_edges None (with_in_edit_mode false (stored out s)).


(** The three ways the vertex store changes: the setter, the statements of
    [edit] after its [yield], and [update_vertex]. *)
Inductive mutation : Type :=
  | SetVertices (new_vertices : list (list Z))
  | Commit
  | UpdateVertex (idx : Z) (vertex : list Z).

Definition mutate (m : mutation) : M unit :=
  match m with
  | SetVertices new_vertices => set_vertices new_vertices
  | Commit => edit_exit
  | UpdateVertex idx vertex => update_vertex idx vertex
  end.

(** The mutations whose code assigns [self._edges = None]. *)
Definition resets_edges (m : mutation) : bool :=
  match m with
  | SetVertices _ => false
  | Commit | UpdateVertex _ _ => true
  end.


(** The object after a successful [_retriangulate] that got [t] back. *)
Definition triangulated (t : Triangulation) (s : PShape) : PShape :=
  with_tri_vertices (Some (pts t))
    (with_tri_faces (Some (ndarray_or_empty (tris t)))
       (with_tri_edges (Some (ndarray_or_empty (tri_edges_attr t)))
          (with_tri (Some t) s))).

(** The accessors that go through the triangulation, under one type. *)
Inductive accessor : Type := draw_vertices | draw_edges | draw_faces.

Inductive drawn : Type :=
  | Vertices (v : option ndarray)
  | Edges (e : option (list (Z * Z)))
  | Faces (f : option (list (Z * Z * Z))).

Definition draw (triangulate : ndarray → option (list (Z * Z)) → outcome Triangulation)
    (a : accessor) : M drawn :=
  match a with
  | draw_vertices => v <- _draw_vertices triangulate ;; ret (Vertices v)
  | draw_edges => e <- _draw_edges triangulate ;; ret (Edges e)
  | draw_faces => f <- _draw_faces triangulate ;; ret (Faces f)
  end.

(** The cache field each of them tests against [None]. *)
Definition cache_absent (a : accessor) (s : PShape) : Prop :=
  match a with
  | draw_vertices => _tri_vertices s = None
  | draw_edges => _tri_edges s = None
  | draw_faces => _tri_faces s = None
  end.

(** What each of them returns on a shape that requires triangulation and
    has it cached. *)
Definition cached (a : accessor) (s : PShape) : drawn :=
  match a with
  | draw_vertices => Vertices (_tri_vertices s)
  | draw_edges => Edges (_tri_edges s)
  | draw_faces => Faces (_tri_faces s)
  end.

(** A stand-in for the service: it hands the vertices and edges back and
    reports one face. *)
Definition sample_triangulate (v : ndarray) (e : option (list (Z * Z)))
  : outcome Triangulation :=
  Ok (mkTriangulation v e (Some [(0, 1, 2)])).

(** ** Callers *)

(** [for v in points: shape.add_vertex(v)], the usual block of an edit
    session. *)
Fixpoint add_vertices (points : list (list Z)) : M unit :=
  match points with
  | [] => ret tt
  | v :: rest => add_vertex v ;;; add_vertices rest
  end.

(** Stand-ins for the service: one that always raises, and one that finds
    nothing and reports no edge and no face array. *)
Definition failing_triangulate (v : ndarray) (e : option (list (Z * Z)))
  : outcome Triangulation :=
  Raise ExternalError.

Definition degenerate_triangulate (v : ndarray) (e : option (list (Z * Z)))
  : outcome Triangulation :=
  Ok (mkTriangulation v None None).

(** What a triangulating accessor returns once the service has answered
    [t]. *)
Definition served (a : accessor) (t : Triangulation) : drawn :=
  match a with
  | draw_vertices => Vertices (Some (pts t))
  | draw_edges => Edges (Some (ndarray_or_empty (tri_edges_attr t)))
  | draw_faces => Faces (Some (ndarray_or_empty (tris t)))
  end.

(** ** Scripts *)

(** The calls a user of a shape can make, and the scripts built from them:
    one call, two scripts in sequence, [try: p except Exception: pass], and
    [with shape.edit(reset): body]. *)
Inductive call : Type :=
  | CVertices
  | CAssign (new_vertices : list (list Z))
  | CEdges
  | CKind
  | CDraw (a : accessor)
  | CDrawOutlineVertices
  | CDrawOutlineEdges
  | CAddVertex (vertex : list Z)
  | CUpdateVertex (idx : Z) (vertex : list Z).

Inductive script : Type :=
  | Call (c : call)
  | Seq (p q : script)
  | Try (p : script)
  | WithEdit (reset : bool) (body : script).

Definition run_call
    (triangulate : ndarray → option (list (Z * Z)) → outcome Triangulation)
    (c : call) : M unit :=
  match c with
  | CVertices => (v <- vertices ;; ret tt)
  | CAssign new_vertices => set_vertices new_vertices
  | CEdges => (e <- edges ;; ret tt)
  | CKind => (k <- kind ;; ret tt)
  | CDraw a => (d <- draw triangulate a ;; ret tt)
  | CDrawOutlineVertices => (v <- _draw_outline_vertices triangulate ;; ret tt)
  | CDrawOutlineEdges => (e <- _draw_outline_edges ;; ret tt)
  | CAddVertex vertex => add_vertex vertex
  | CUpdateVertex idx vertex => update_vertex idx vertex
  end.

Fixpoint run
    (triangulate : ndarray → option (list (Z * Z)) → outcome Triangulation)
    (p : script) : M unit :=
  match p with
  | Call c => run_call triangulate c
  | Seq p q => run triangulate p ;;; run triangulate q
  | Try p => λ w, (Ok tt, (run triangulate p w).2)
  | WithEdit reset body => edit reset (run triangulate body)
  end.

(** ** What the methods do to the object *)

(** Every change the methods make to the object is one of these, or several
    in a row. *)
Inductive touched : PShape → PShape → Prop :=
  | touched_not s : touched s s
  | touched_emptied s : touched s (with_vertices NdEmpty s)
  | touched_stored s out :
      out ≠ [] → Forall (λ r, length r = 2%nat) out →
      touched s (stored out s)
  | touched_committed s out :
      out ≠ [] → Forall (λ r, length r = 2%nat) out →
      touched s (committed out s)
  | touched_updated s rows i p :
      _vertices s = NdRows rows → length p = 2%nat →
      touched s (updated (<[i := p]> rows) s)
  | touched_recomputed s n : touched s (recomputed n s)
  | touched_triangulated s t : touched s (triangulated t s)
  | touched_buffered s buf :
      touched s (with_vertex_cache (Some buf) s)
  | touched_opened s reset : touched s (opened reset s)
  | touched_twice s1 s2 s3 : touched s1 s2 → touched s2 s3 → touched s1 s3.

(** The store is the empty one-axis array or a non-empty two-axis array
    whose rows have width 2. *)
Definition store_flat (s : PShape) : Prop :=
  match _vertices s with
  | NdEmpty => True
  | NdRows rows => rows ≠ [] ∧ Forall (λ r, length r = 2%nat) rows
  end.

(** The three triangulation fields are absent together or present
    together. *)
Definition tri_cache_whole (s : PShape) : Prop :=
  (_tri_vertices s = None ∧ _tri_edges s = None ∧ _tri_faces s = None)
  ∨ (is_Some (_tri_vertices s) ∧ is_Some (_tri_edges s)
     ∧ is_Some (_tri_faces s)).

(** What holds of a shape built with the attributes of [s0], whatever has
    been done to it since. *)
Definition well_formed (s0 s : PShape) : Prop :=
  store_flat s
  ∧ tri_cache_whole s
  ∧ (_in_edit_mode s = true → is_Some (_vertex_cache s))
  ∧ (is_Some (_edges s) → is_Some (_outline s))
  ∧ attribs s = attribs s0
  ∧ _tri_required s = _tri_required s0.

(** * Properties *)

(** ** The sanitizer *)

Lemma sanitize_loop_rule vertices sanitized :
  sanitize_loop 2 3 vertices sanitized =
  match sanitize_rule vertices with
  | Ok out => Ok (sanitized ++ out)
  | Raise e => Raise e
  end.
Proof.
  revert sanitized.
  induction vertices as [|v rest IH]; intros acc; simpl.
  - by rewrite app_nil_r.
  - destruct v as [|a [|b [|c [|d v]]]]; simpl; try reflexivity.
    + rewrite IH. unfold sanitize_point_rule; simpl.
      destruct (sanitize_rule rest); [|done].
      by rewrite <- app_assoc.
    + rewrite IH. unfold sanitize_point_rule; simpl.
      destruct (sanitize_rule rest); [|done].
      by rewrite <- app_assoc.
Qed.

Lemma sanitize_rule_exact vertices :
  Forall (λ v, length v = 2%nat) vertices → sanitize_rule vertices = Ok vertices.
Proof.
  induction 1 as [|v rest Hv _ IH]; simpl; [done|].
  unfold sanitize_point_rule. rewrite decide_True by done. by rewrite IH.
Qed.

Lemma sanitize_rule_width vertices out :
  sanitize_rule vertices = Ok out →
  length out = length vertices ∧ Forall (λ r, length r = 2%nat) out.
Proof.
  revert out. induction vertices as [|v rest IH]; intros out; simpl.
  - intros [= <-]. by split.
  - unfold sanitize_point_rule.
    destruct (decide (length v = 2%nat)) as [H2|H2];
      [|destruct (decide (length v = 3%nat)) as [H3|H3]]; try done;
      destruct (sanitize_rule rest) as [o|]; try done;
      intros [= <-]; destruct (IH o eq_refl) as [Hl Hw]; simpl;
      (split; [by rewrite Hl | constructor; [|done]]); [done|].
    rewrite length_take. lia.
Qed.

Lemma sanitize_default_rule vertices :
  _sanitize_vertex_list vertices 2 3 = sanitize_rule vertices.
Proof.
  unfold _sanitize_vertex_list. rewrite sanitize_loop_rule.
  by destruct (sanitize_rule vertices).
Qed.

(** C3, as the code has it: with the target dimension 2 and the source
    dimension 3 of the setter, the sanitizer keeps a point of length 2,
    cuts a point of length 3 down to its first two components, and raises
    the dimension error as soon as a point has any other length. *)
Theorem sanitize_vertex_list_default vertices :
  _sanitize_vertex_list vertices 2 3 = sanitize_rule vertices.
Proof. apply sanitize_default_rule. Qed.

(** C3 fails as stated: a point of length 1 is not padded, and a point of
    length 4 is not truncated; both raise. *)
Lemma sanitize_short_point_raises :
  _sanitize_vertex_list [[5]] 2 3
    = Raise (ValueError "unexpected vertex dimension")
  ∧ _sanitize_vertex_list [[5]] 2 3 ≠ Ok [[5; 0]]
  ∧ _sanitize_vertex_list [[5; 6; 7; 8]] 2 3
    = Raise (ValueError "unexpected vertex dimension").
Proof. repeat split; done. Qed.

(** ** The vertex setter *)

Lemma set_vertices_accepts new_vertices out w :
  new_vertices ≠ [] →
  sanitize_rule new_vertices = Ok out →
  set_vertices new_vertices w
    = (Ok tt, mkWorld (stored out (self w)) (tri_calls w)).
Proof.
  intros Hne Hs.
  destruct (sanitize_rule_width _ _ Hs) as [Hlen _].
  unfold set_vertices, bind, lift.
  rewrite sanitize_default_rule, Hs.
  destruct out as [|r out]; [by destruct new_vertices|].
  cbn -[len]. unfold len. rewrite Hlen, Z.eqb_refl. done.
Qed.

Lemma set_vertices_rejects new_vertices e w :
  sanitize_rule new_vertices = Raise e →
  set_vertices new_vertices w = (Raise e, w).
Proof.
  intros Hs. unfold set_vertices, bind, lift.
  by rewrite sanitize_default_rule, Hs.
Qed.

(** The empty sequence passes the sanitizer, is stored as the one-axis empty
    array, and then [hstack] raises: the caches are not reset. *)
Lemma set_vertices_empty w :
  set_vertices [] w
    = (Raise (ValueError "all the input arrays must have same number of dimensions"),
       mkWorld (with_vertices NdEmpty (self w)) (tri_calls w)).
Proof. reflexivity. Qed.

(** A successful assignment stores a two-axis array. *)
Lemma set_vertices_inv new_vertices w w' :
  set_vertices new_vertices w = (Ok tt, w') →
  ∃ out, new_vertices ≠ [] ∧ sanitize_rule new_vertices = Ok out
         ∧ w' = mkWorld (stored out (self w)) (tri_calls w).
Proof.
  intros H. destruct new_vertices as [|v rest].
  - by rewrite set_vertices_empty in H.
  - destruct (sanitize_rule (v :: rest)) as [out|e] eqn:Hs.
    + exists out. rewrite (set_vertices_accepts _ out) in H by done.
      split; [done|]. split; [done|]. congruence.
    + by rewrite (set_vertices_rejects _ e) in H.
Qed.

(** C9, as the code has it: for every non-empty sequence [V] of points of
    length 2, assigning [V] through the setter succeeds and reading
    [vertices] afterwards returns the array whose rows are exactly [V], in
    the same order. *)
Theorem set_then_get_vertices V w :
  V ≠ [] →
  Forall (λ v, length v = 2%nat) V →
  ∃ w', set_vertices V w = (Ok tt, w') ∧ vertices w' = (Ok (NdRows V), w').
Proof.
  intros Hne H2. eexists. split.
  - apply set_vertices_accepts; [done|]. by apply sanitize_rule_exact.
  - reflexivity.
Qed.

Lemma set_then_get_vertices_witness :
  ∃ w', set_vertices square (mkWorld (blank "closed") []) = (Ok tt, w')
        ∧ vertices w' = (Ok (NdRows square), w').
Proof.
  apply (set_then_get_vertices square (mkWorld (blank "closed") [])).
  - discriminate.
  - repeat constructor.
Defined.

(** C9 fails as stated for the empty sequence, whose points are all (none)
    of length 2: the assignment raises. *)
Lemma set_vertices_empty_raises :
  result (set_vertices []) (mkWorld (blank "closed") [])
    = Raise (ValueError "all the input arrays must have same number of dimensions").
Proof. reflexivity. Qed.

(** ** Single-vertex update *)

Lemma update_vertex_wrong_length idx p w :
  length p ≠ 2%nat →
  update_vertex idx p w = (Raise (ValueError "Wrong vertex dimension"), w).
Proof.
  intros Hp. unfold update_vertex, len.
  destruct (Z.eqb_spec (Z.of_nat (length p)) 2) as [H|H]; [lia|done].
Qed.

Lemma update_vertex_inv idx p w w' :
  update_vertex idx p w = (Ok tt, w') →
  ∃ rows rows', _vertices (self w) = NdRows rows
                ∧ length rows' = length rows
                ∧ w' = mkWorld (updated rows' (self w)) (tri_calls w).
Proof.
  unfold update_vertex.
  destruct (len p =? 2); simpl; [|done].
  unfold bind, read, lift, setitem.
  destruct (_vertices (self w)) as [|rows]; [done|].
  destruct ((idx <? - len rows) || (len rows <=? idx)); [done|].
  destruct (rows !! _) as [r|]; [|done].
  destruct (len r =? len p); [|done].
  cbn. intros [= <-]. eexists _, _. split; [done|]. split; [|done].
  apply length_insert.
Qed.

(** C7: on a store of [n] two-component rows and for an index in
    [0, n-1], [update_vertex] with a point of length 3 raises the dimension
    error and changes nothing; with a point of length 2 it succeeds, puts
    the point at that index and leaves every other row as it was. *)
Theorem update_vertex_frame w rows idx p :
  _vertices (self w) = NdRows rows →
  Forall (λ r, length r = 2%nat) rows →
  0 ≤ idx < len rows →
  (length p = 3%nat →
   update_vertex idx p w = (Raise (ValueError "Wrong vertex dimension"), w))
  ∧ (length p = 2%nat →
     ∃ rows',
       update_vertex idx p w
         = (Ok tt, mkWorld (updated rows' (self w)) (tri_calls w))
       ∧ length rows' = length rows
       ∧ rows' !! Z.to_nat idx = Some p
       ∧ ∀ j, j ≠ Z.to_nat idx → rows' !! j = rows !! j).
Proof.
  intros Hv Hw Hidx. unfold len in Hidx. split.
  - intros Hp. apply update_vertex_wrong_length. lia.
  - intros Hp. exists (<[Z.to_nat idx := p]> rows).
    assert (Hlt : (Z.to_nat idx < length rows)%nat) by lia.
    split; [|split; [apply length_insert|split]].
    + unfold update_vertex, len. rewrite Hp. simpl.
      unfold bind, read, lift, setitem. rewrite Hv. unfold len.
      destruct (Z.ltb_spec idx (- Z.of_nat (length rows))); [lia|].
      destruct (Z.leb_spec (Z.of_nat (length rows)) idx); [lia|].
      destruct (Z.ltb_spec idx 0); [lia|]. simpl.
      destruct (lookup_lt_is_Some_2 rows _ Hlt) as [r Hr]. rewrite Hr.
      rewrite (proj1 (Forall_lookup _ _) Hw _ _ Hr), Hp. done.
    + by apply list_lookup_insert_eq.
    + intros j Hj. by apply list_lookup_insert_ne.
Qed.

Lemma update_vertex_frame_witness :
  update_vertex 1 [1; 2; 3] (constructed square "closed")
    = (Raise (ValueError "Wrong vertex dimension"), constructed square "closed")
  ∧ ∃ rows',
      update_vertex 1 [5; 5] (constructed square "closed")
        = (Ok tt, mkWorld (updated rows' (self (constructed square "closed")))
                    (tri_calls (constructed square "closed")))
      ∧ length rows' = length square
      ∧ rows' !! Z.to_nat 1 = Some [5; 5]
      ∧ ∀ j, j ≠ Z.to_nat 1 → rows' !! j = square !! j.
Proof.
  assert (Hrows : Forall (λ r, length r = 2%nat) square) by repeat constructor.
  assert (Hidx : 0 ≤ 1 < len square) by (unfold len; simpl; lia).
  split.
  - exact (proj1 (update_vertex_frame (constructed square "closed") square 1
                    [1; 2; 3] eq_refl Hrows Hidx) eq_refl).
  - exact (proj2 (update_vertex_frame (constructed square "closed") square 1
                    [5; 5] eq_refl Hrows Hidx) eq_refl).
Defined.

(** ** Topology *)

Lemma zip_map_self (f : Z → Z) (l : list Z) :
  zip l (map f l) = map (λ i, (i, f i)) l.
Proof. induction l as [|x l IH]; simpl; [done|]. by rewrite IH. Qed.

Lemma compute_poly_edges_rows w rows :
  _vertices (self w) = NdRows rows →
  _compute_poly_edges w = (Ok (ring (len rows)), w).
Proof.
  intros Hv. unfold _compute_poly_edges, bind, read, lift, ret.
  rewrite Hv. simpl. unfold vstack_transpose, arange, ring.
  by rewrite zip_map_self.
Qed.

Lemma compute_outline_edges_rows w rows :
  _vertices (self w) = NdRows rows →
  _compute_outline_edges w = (Ok (chain (len rows)), w).
Proof.
  intros Hv. unfold _compute_outline_edges, bind, read, lift, ret.
  rewrite Hv. simpl. unfold vstack_transpose, arange, chain.
  by rewrite zip_map_self.
Qed.

Lemma edges_point w :
  has "point" (self w) = true → edges w = (Ok (Some []), w).
Proof. intros Hp. unfold edges, bind, read. cbn. by rewrite Hp. Qed.

Lemma edges_cached w e :
  has "point" (self w) = false → _edges (self w) = Some e →
  edges w = (Ok (Some e), w).
Proof.
  intros Hp He. unfold edges, bind, read. cbn. rewrite Hp, He. cbn.
  by rewrite He.
Qed.

Lemma edges_recompute w rows :
  has "point" (self w) = false → _edges (self w) = None →
  _vertices (self w) = NdRows rows →
  edges w = (Ok (Some (derived_edges (self w) (len rows))),
             mkWorld (recomputed (len rows) (self w)) (tri_calls w)).
Proof.
  intros Hp He Hv. unfold edges, bind at 1, read at 1. cbn.
  rewrite Hp, He.
  unfold recomputed, derived_outline, derived_edges.
  destruct (has "path" (self w)), (has "open" (self w));
    unfold bind, _compute_outline_edges, _compute_poly_edges, read, assign,
      lift, ret, bind; cbn -[len]; repeat (rewrite Hv; cbn -[len]);
    unfold vstack_transpose, arange, ring, chain; by rewrite ?zip_map_self.
Qed.

Lemma edges_empty_store w :
  has "point" (self w) = false → _edges (self w) = None →
  _vertices (self w) = NdEmpty →
  edges w
    = (Raise (ValueError "not enough values to unpack (expected 2, got 1)"), w).
Proof.
  intros Hp He Hv. unfold edges, bind, read, lift. cbn.
  by rewrite Hp, He, Hv.
Qed.

Lemma lookup_map {A B} (f : A → B) (l : list A) (i : nat) :
  map f l !! i = f <$> (l !! i).
Proof.
  revert i. induction l as [|x l IH]; intros [|i]; simpl; try done.
Qed.

Lemma ring_length n : 0 ≤ n → len (ring n) = n.
Proof.
  intros Hn. unfold ring, len. rewrite length_map, length_seqZ. lia.
Qed.

Lemma ring_lookup n i :
  0 ≤ i < n → ring n !! Z.to_nat i = Some (i, (i + 1) `mod` n).
Proof.
  intros Hi. unfold ring. rewrite lookup_map.
  rewrite lookup_seqZ_lt by lia. simpl. do 3 f_equal; lia.
Qed.

(** ** Construction *)

Lemma sanitize_rule_total vertices :
  Forall (λ v, length v = 2%nat ∨ length v = 3%nat) vertices →
  ∃ out, sanitize_rule vertices = Ok out.
Proof.
  induction 1 as [|v rest Hv _ [out IH]]; simpl; [by eexists|].
  rewrite IH. unfold sanitize_point_rule.
  destruct (decide (length v = 2%nat)); [by eexists|].
  destruct (decide (length v = 3%nat)); [by eexists|].
  by destruct Hv.
Qed.

Lemma init_nonempty vertices a out :
  vertices ≠ [] → sanitize_rule vertices = Ok out →
  __init__ vertices a = (Ok tt, mkWorld (stored out (blank a)) []).
Proof.
  intros Hne Hs. unfold __init__.
  destruct vertices as [|v rest]; [done|].
  replace (0 <? len (v :: rest)) with true
    by (symmetry; apply Z.ltb_lt; unfold len; simpl; lia).
  by rewrite (set_vertices_accepts _ out).
Qed.

Lemma init_empty a : __init__ [] a = (Ok tt, mkWorld (blank a) []).
Proof. reflexivity. Qed.

(** Whatever [__init__] does, it leaves the edge caches absent. *)
Lemma init_edge_caches vertices a :
  _edges (self (constructed vertices a)) = None
  ∧ _outline (self (constructed vertices a)) = None.
Proof.
  unfold constructed. destruct vertices as [|v rest]; [done|].
  destruct (sanitize_rule (v :: rest)) as [out|e] eqn:Hs.
  - by rewrite (init_nonempty _ _ out).
  - unfold __init__.
    replace (0 <? len (v :: rest)) with true
      by (symmetry; apply Z.ltb_lt; unfold len; simpl; lia).
    by rewrite (set_vertices_rejects _ e).
Qed.

(** X22: a shape built from at least three points of length 2 or 3, with
    neither 'point' nor 'path' among its attributes, is of kind 'poly' and
    its [edges] are the pairs [(i, (i+1) mod n)] for [i] from 0 to [n-1],
    with [n] the number of points: [n] pairs, one leaving each index. *)
Theorem polygon_edges_closed_ring V a :
  Forall (λ v, length v = 2%nat ∨ length v = 3%nat) V →
  3 ≤ len V →
  has "point" (blank a) = false →
  has "path" (blank a) = false →
  result kind (constructed V a) = Ok "poly"%string
  ∧ result edges (constructed V a) = Ok (Some (ring (len V)))
  ∧ len (ring (len V)) = len V
  ∧ ∀ i, 0 ≤ i < len V →
         ring (len V) !! Z.to_nat i = Some (i, (i + 1) `mod` len V).
Proof.
  intros HV Hn Hpoint Hpath.
  destruct (sanitize_rule_total _ HV) as [out Hs].
  destruct (sanitize_rule_width _ _ Hs) as [Hlen _].
  assert (Hne : V ≠ []) by (intros ->; unfold len in Hn; simpl in Hn; lia).
  unfold constructed, result. rewrite (init_nonempty _ _ out) by done.
  split; [|split; [|split]].
  - unfold kind, bind, read, ret. cbn.
    change (has "point" (stored out (blank a))) with (has "point" (blank a)).
    change (has "path" (stored out (blank a))) with (has "path" (blank a)).
    by rewrite Hpoint, Hpath.
  - rewrite (edges_recompute _ out) by done. cbn.
    unfold derived_edges.
    change (has "path" (stored out (blank a))) with (has "path" (blank a)).
    rewrite Hpath. unfold len. by rewrite Hlen.
  - apply ring_length. lia.
  - apply ring_lookup.
Qed.

Lemma polygon_edges_closed_ring_witness :
  result kind (constructed square "closed") = Ok "poly"%string
  ∧ result edges (constructed square "closed")
    = Ok (Some [(0, 1); (1, 2); (2, 3); (3, 0)])
  ∧ len (ring (len square)) = len square
  ∧ ∀ i, 0 ≤ i < len square →
         ring (len square) !! Z.to_nat i = Some (i, (i + 1) `mod` len square).
Proof.
  apply (polygon_edges_closed_ring square "closed").
  - repeat constructor.
  - vm_compute. discriminate.
  - vm_compute. reflexivity.
  - vm_compute. reflexivity.
Defined.

(** C8: the code breaks the claim.  A polygon whose [edges] were read while
    it held three vertices, and which is then assigned four vertices through
    the setter, is of kind 'poly' and holds four vertices, but [edges] is
    still the ring of the three old ones: the setter does not reset
    [_edges], as [update_vertex] and [edit] do. *)
Theorem polygon_edges_stale_after_assignment :
  let w1 := after edges (constructed triangle "closed") in
  let w2 := after (set_vertices square) w1 in
  result (set_vertices square) w1 = Ok tt
  ∧ result kind w2 = Ok "poly"%string
  ∧ _vertices (self w2) = NdRows square
  ∧ result edges w2 = Ok (Some [(0, 1); (1, 2); (2, 0)])
  ∧ result edges w2 ≠ Ok (Some (ring (len square))).
Proof. repeat split; try (vm_compute; reflexivity). vm_compute. discriminate. Qed.

(** C4, as the code has it: reading [edges] succeeds with the empty edge
    set on every point shape, whatever it holds, and on a path shape that
    holds one vertex and has nothing cached; on a polygon that holds one
    vertex and has nothing cached it succeeds with the single pair
    [(0, 0)]. *)
Theorem edges_degenerate w :
  has "point" (self w) = true
  ∨ (_edges (self w) = None ∧ ∃ r, _vertices (self w) = NdRows [r]) →
  result edges w
    = Ok (Some (if has "point" (self w) || has "path" (self w)
                then [] else [(0, 0)])).
Proof.
  intros [Hp|[He [r Hv]]]; unfold result.
  - by rewrite edges_point, Hp.
  - destruct (has "point" (self w)) eqn:Hp; [by rewrite edges_point|].
    rewrite (edges_recompute _ [r]) by done. cbn.
    unfold derived_edges. by destruct (has "path" (self w)).
Qed.

Lemma edges_degenerate_witness :
  result edges (constructed [[1; 1]] "path") = Ok (Some []).
Proof.
  apply (edges_degenerate (constructed [[1; 1]] "path")).
  right. split; [reflexivity|]. by exists [1; 1].
Defined.

(** C4 fails as stated: a polygon that holds one vertex has the edge
    [(0, 0)], and a polygon that holds no vertex cannot be read at all. *)
Lemma edges_degenerate_polygon :
  result edges (constructed [[1; 1]] "closed") = Ok (Some [(0, 0)])
  ∧ _vertices (self (constructed [] "closed")) = NdEmpty
  ∧ result edges (constructed [] "closed")
    = Raise (ValueError "not enough values to unpack (expected 2, got 1)").
Proof. split; [|split]; vm_compute; reflexivity. Qed.

(** ** Edit session *)

Lemma edit_enter_closed reset w :
  _in_edit_mode (self w) = false →
  edit_enter reset w = (Ok tt, mkWorld (opened reset (self w)) (tri_calls w)).
Proof.
  intros Hm. unfold edit_enter, bind, read. cbn. rewrite Hm.
  unfold opened. by destruct reset.
Qed.

Lemma edit_enter_open reset w :
  _in_edit_mode (self w) = true →
  edit_enter reset w = (Raise (ValueError "Shape is being edited already"), w).
Proof. intros Hm. unfold edit_enter, bind, read. cbn. by rewrite Hm. Qed.

Lemma edit_exit_accepts w buf out :
  _vertex_cache (self w) = Some buf →
  buf ≠ [] →
  sanitize_rule buf = Ok out →
  edit_exit w = (Ok tt, mkWorld (committed out (self w)) (tri_calls w)).
Proof.
  intros Hc Hne Hs. unfold edit_exit, bind at 1, read at 1. cbn.
  rewrite Hc. unfold bind. by rewrite (set_vertices_accepts _ out).
Qed.

Lemma edit_exit_inv w w' :
  edit_exit w = (Ok tt, w') →
  ∃ out, w' = mkWorld (committed out (self w)) (tri_calls w).
Proof.
  unfold edit_exit, bind at 1, read at 1. cbn.
  destruct (_vertex_cache (self w)) as [buf|]; [|done].
  unfold bind at 1.
  destruct (set_vertices buf w) as [[[]|e] w1] eqn:Hset; [|done].
  destruct (set_vertices_inv _ _ _ Hset) as (out & _ & _ & ->).
  cbn. intros [= <-]. by exists out.
Qed.

(** A block that raises leaves the [with] statement with its exception, and
    the statements after the [yield] are not run: the world is the one the
    block left. *)
Lemma edit_body_raises reset body w e w1 :
  _in_edit_mode (self w) = false →
  body (mkWorld (opened reset (self w)) (tri_calls w)) = (Raise e, w1) →
  edit reset body w = (Raise e, w1).
Proof.
  intros Hm Hb. unfold edit, bind.
  by rewrite edit_enter_closed, Hb.
Qed.

(** X23: when the block of an edit session on a closed shape ends
    normally and the buffer it leaves is a non-empty sequence that the
    sanitizer accepts, the closing step runs: the buffer goes through the
    sanitizer into the vertex store, the triangulation and [edges] are
    reset, and the shape is no longer in edit mode. *)
Theorem edit_commits_on_normal_exit reset body w w1 buf out :
  _in_edit_mode (self w) = false →
  body (mkWorld (opened reset (self w)) (tri_calls w)) = (Ok tt, w1) →
  _vertex_cache (self w1) = Some buf →
  buf ≠ [] →
  _sanitize_vertex_list buf 2 3 = Ok out →
  ∃ w2, edit reset body w = (Ok tt, w2)
        ∧ _in_edit_mode (self w2) = false
        ∧ _vertices (self w2) = NdRows out
        ∧ _edges (self w2) = None
        ∧ _tri_faces (self w2) = None.
Proof.
  intros Hm Hb Hc Hne Hs. rewrite sanitize_default_rule in Hs.
  exists (mkWorld (committed out (self w1)) (tri_calls w1)).
  split; [|done].
  unfold edit, bind. rewrite edit_enter_closed, Hb by done.
  by apply (edit_exit_accepts _ buf).
Qed.

Lemma edit_commits_on_normal_exit_witness :
  ∃ w2, edit true (add_vertex [0; 0] ;;; add_vertex [1; 0] ;;; add_vertex [1; 1])
          (constructed square "closed") = (Ok tt, w2)
        ∧ _in_edit_mode (self w2) = false
        ∧ _vertices (self w2) = NdRows [[0; 0]; [1; 0]; [1; 1]]
        ∧ _edges (self w2) = None
        ∧ _tri_faces (self w2) = None.
Proof.
  refine (edit_commits_on_normal_exit true _ (constructed square "closed")
            _ [[0; 0]; [1; 0]; [1; 1]] _ _ _ _ _ _);
    [reflexivity | reflexivity | reflexivity | discriminate | reflexivity].
Defined.

(** C2: the code breaks the claim.  [edit] has no handler around its
    [yield], so when the block raises, the statements after the [yield] are
    not run: the exception leaves the [with] statement, nothing is
    committed, the shape is still in edit mode, and every later [edit]
    raises at its first test. *)
Theorem edit_stays_open_when_body_raises reset body w e w1 :
  _in_edit_mode (self w) = false →
  body (mkWorld (opened reset (self w)) (tri_calls w)) = (Raise e, w1) →
  _in_edit_mode (self w1) = true →
  edit reset body w = (Raise e, w1)
  ∧ _in_edit_mode (self (after (edit reset body) w)) = true
  ∧ ∀ reset' body',
      edit reset' body' (after (edit reset body) w)
      = (Raise (ValueError "Shape is being edited already"),
         after (edit reset body) w).
Proof.
  intros Hm Hb Hopen.
  assert (He : edit reset body w = (Raise e, w1)).
  { unfold edit, bind. by rewrite edit_enter_closed, Hb. }
  unfold after. rewrite He. cbn [fst snd]. split; [done|]. split; [done|].
  intros reset' body'. unfold edit, bind. by rewrite edit_enter_open.
Qed.

Lemma edit_stays_open_when_body_raises_witness :
  let w := constructed square "closed" in
  let w1 := after (edit true (update_vertex 0 [1; 2; 3])) w in
  edit true (update_vertex 0 [1; 2; 3]) w
    = (Raise (ValueError "Wrong vertex dimension"), w1)
  ∧ _in_edit_mode (self w1) = true
  ∧ ∀ reset' body',
      edit reset' body' w1
      = (Raise (ValueError "Shape is being edited already"), w1).
Proof.
  intros w w1.
  exact (edit_stays_open_when_body_raises true (update_vertex 0 [1; 2; 3]) w
           (ValueError "Wrong vertex dimension") w1 eq_refl eq_refl eq_refl).
Defined.

(** The same at two concrete sessions: a block that raises, and a block
    that ends normally with a buffer the sanitizer refuses. *)
Lemma edit_left_open :
  result (edit true (update_vertex 0 [1; 2; 3])) (constructed square "closed")
    = Raise (ValueError "Wrong vertex dimension")
  ∧ _in_edit_mode
      (self (after (edit true (update_vertex 0 [1; 2; 3]))
               (constructed square "closed"))) = true
  ∧ result (edit true (add_vertex [7])) (constructed square "closed")
    = Raise (ValueError "unexpected vertex dimension")
  ∧ _in_edit_mode
      (self (after (edit true (add_vertex [7]))
               (constructed square "closed"))) = true.
Proof. repeat split; vm_compute; reflexivity. Qed.



(** ** Reads that fill the caches *)

(** [edges] either leaves the world as it is, or finds nothing cached on a
    two-axis store and recomputes both edge caches from it. *)
Lemma edges_cases w :
  (∃ r, edges w = (r, w))
  ∨ (∃ rows, _vertices (self w) = NdRows rows
             ∧ edges w = (Ok (Some (derived_edges (self w) (len rows))),
                          mkWorld (recomputed (len rows) (self w)) (tri_calls w))).
Proof.
  destruct (has "point" (self w)) eqn:Hp.
  - left. eexists. by apply edges_point.
  - destruct (_edges (self w)) as [e|] eqn:He.
    + left. eexists. by apply edges_cached.
    + destruct (_vertices (self w)) as [|rows] eqn:Hv.
      * left. eexists. by apply edges_empty_store.
      * right. exists rows. split; [done|]. by apply edges_recompute.
Qed.

Lemma edges_on_rows w rows :
  _vertices (self w) = NdRows rows → ∃ e w1, edges w = (Ok (Some e), w1).
Proof.
  intros Hv. destruct (has "point" (self w)) eqn:Hp.
  - eexists _, _. by apply edges_point.
  - destruct (_edges (self w)) as [e|] eqn:He.
    + eexists _, _. by apply edges_cached.
    + eexists _, _. by apply edges_recompute.
Qed.

Section AdapterProperties.

Variable triangulate :
  ndarray → option (list (Z * Z)) → outcome Triangulation.

Lemma retriangulate_run w e w1 :
  edges w = (Ok e, w1) →
  _retriangulate triangulate w =
  match triangulate (_vertices (self w)) e with
  | Ok t => (Ok tt, mkWorld (triangulated t (self w1))
                      (tri_calls w1 ++ [(_vertices (self w), e)]))
  | Raise x => (Raise x, mkWorld (self w1)
                           (tri_calls w1 ++ [(_vertices (self w), e)]))
  end.
Proof.
  intros He. unfold _retriangulate, bind at 1, vertices, read at 1.
  unfold bind at 1. rewrite He. unfold bind at 1, call_triangulate.
  by destruct (triangulate (_vertices (self w)) e).
Qed.

Lemma retriangulate_inv w w2 :
  _retriangulate triangulate w = (Ok tt, w2) →
  ∃ e t w1, edges w = (Ok e, w1)
            ∧ (w1 = w ∨ ∃ n, w1 = mkWorld (recomputed n (self w)) (tri_calls w))
            ∧ w2 = mkWorld (triangulated t (self w1))
                     (tri_calls w ++ [(_vertices (self w), e)]).
Proof.
  intros H. destruct (edges w) as [[e|x] w1] eqn:He.
  - rewrite (retriangulate_run _ _ _ He) in H.
    destruct (triangulate (_vertices (self w)) e) as [t|]; [|done].
    exists e, t, w1. split; [done|].
    destruct (edges_cases w) as [[r Hr]|(rows & _ & Hr)];
      rewrite Hr in He; simplify_eq.
    + by split; [left|].
    + by split; [right; eexists|].
  - unfold _retriangulate, bind at 1, vertices, read at 1 in H.
    unfold bind at 1 in H. by rewrite He in H.
Qed.

(** With the cache absent an accessor re-triangulates and then reads the
    cache. *)
Lemma draw_absent a w :
  _tri_required (self w) = true →
  cache_absent a (self w) →
  draw triangulate a w =
  match _retriangulate triangulate w with
  | (Ok _, w') =>
      (if _tri_required (self w') then Ok (cached a (self w'))
       else match a with
            | draw_vertices => Ok (Vertices (Some (_vertices (self w'))))
            | _ => Ok (cached a (self w'))
            end, w')
  | (Raise e, w') => (Raise e, w')
  end.
Proof.
  intros Hreq Habs.
  destruct a; simpl in Habs;
    unfold draw, _draw_vertices, _draw_edges, _draw_faces, bind, read, ret;
    cbn; rewrite Hreq, Habs; cbn;
    destruct (_retriangulate triangulate w) as [[[]|x] w2]; try done;
    cbn; by destruct (_tri_required (self w2)).
Qed.

(** Once [_retriangulate] has returned, no accessor changes the world. *)
Lemma draw_after_retriangulate w w2 b :
  _tri_required (self w) = true →
  _retriangulate triangulate w = (Ok tt, w2) →
  length (tri_calls w2) = S (length (tri_calls w))
  ∧ _tri_required (self w2) = true
  ∧ draw triangulate b w2 = (Ok (cached b (self w2)), w2).
Proof.
  intros Hreq H.
  destruct (retriangulate_inv _ _ H) as (e & t & w1 & _ & Hw1 & ->).
  split; [cbn [tri_calls]; rewrite length_app; simpl; lia|].
  assert (Hreq1 : _tri_required (self w1) = true)
    by (destruct Hw1 as [->|[n ->]]; done).
  split; [done|].
  destruct b;
    unfold draw, _draw_vertices, _draw_edges, _draw_faces, bind, read, ret;
    cbn; repeat (rewrite Hreq1; cbn); reflexivity.
Qed.

End AdapterProperties.

(** ** Invalidation *)

Lemma edges_keeps_log w : tri_calls (after edges w) = tri_calls w.
Proof.
  unfold after.
  by destruct (edges_cases w) as [[r ->]|(rows & _ & ->)].
Qed.

(** What every successful mutation leaves behind. *)
Lemma mutate_inv m w w' :
  mutate m w = (Ok tt, w') →
  ∃ rows, _vertices (self w') = NdRows rows
          ∧ _tri_vertices (self w') = None
          ∧ _tri_edges (self w') = None
          ∧ _tri_faces (self w') = None
          ∧ (resets_edges m = true → _edges (self w') = None).
Proof.
  destruct m as [V| |idx p]; simpl; intros H.
  - destruct (set_vertices_inv _ _ _ H) as (out & _ & _ & ->).
    by exists out.
  - destruct (edit_exit_inv _ _ H) as (out & ->). by exists out.
  - destruct (update_vertex_inv _ _ _ _ H) as (rows & rows' & _ & _ & ->).
    by exists rows'.
Qed.

(** No mutation assigns [_outline]. *)
Lemma mutate_keeps_outline m w w' :
  mutate m w = (Ok tt, w') →
  _outline (self w') = _outline (self w)
  ∧ attribs (self w') = attribs (self w).
Proof.
  destruct m as [V| |idx p]; simpl; intros H.
  - by destruct (set_vertices_inv _ _ _ H) as (out & _ & _ & ->).
  - by destruct (edit_exit_inv _ _ H) as (out & ->).
  - by destruct (update_vertex_inv _ _ _ _ H) as (rows & rows' & _ & _ & ->).
Qed.

Section Invalidation.

Variable triangulate :
  ndarray → option (list (Z * Z)) → outcome Triangulation.


End Invalidation.



(** ** The outline accessor *)

Lemma draw_outline_edges_run w :
  _draw_outline_edges w
    = (Ok (if has "open" (self w) then _outline (self w) else _edges (self w)),
       w).
Proof.
  unfold _draw_outline_edges, bind, read. cbn.
  by destruct (has "open" (self w)).
Qed.

(** C10, as the code has it: [_draw_outline_edges] computes nothing and
    changes nothing; it returns [_outline] on an open shape and [_edges] on
    any other.  So it returns [None] on a shape just constructed, and on a
    shape without 'open' just after an edit-session commit or a
    single-vertex update.  On a shape with 'open' it returns, just after any
    of the three mutations, the outline that was cached before the
    mutation: no invalidation resets [_outline]. *)
Theorem draw_outline_edges_reads_cache w V a :
  _draw_outline_edges w
    = (Ok (if has "open" (self w) then _outline (self w) else _edges (self w)),
       w)
  ∧ _draw_outline_edges (constructed V a) = (Ok None, constructed V a)
  ∧ (∀ m w', mutate m w = (Ok tt, w') →
             has "open" (self w') = has "open" (self w)
             ∧ (has "open" (self w) = false → resets_edges m = true →
                _draw_outline_edges w' = (Ok None, w'))
             ∧ (has "open" (self w) = true →
                _draw_outline_edges w' = (Ok (_outline (self w)), w'))).
Proof.
  split; [apply draw_outline_edges_run|]. split.
  - rewrite draw_outline_edges_run.
    destruct (init_edge_caches V a) as [-> ->].
    by destruct (has "open" _).
  - intros m w' H.
    destruct (mutate_inv _ _ _ H) as (rows & _ & _ & _ & _ & He).
    destruct (mutate_keeps_outline _ _ _ H) as [Hout Hattr].
    assert (Hopen : has "open" (self w') = has "open" (self w))
      by (unfold has; by rewrite Hattr).
    split; [done|]. split.
    + intros Hclosed Hm.
      by rewrite draw_outline_edges_run, Hopen, Hclosed, He.
    + intros Hopened.
      by rewrite draw_outline_edges_run, Hopen, Hopened, Hout.
Qed.

Lemma draw_outline_edges_reads_cache_witness :
  let w := after edges (constructed square "closed") in
  let w' := after (update_vertex 0 [5; 5]) w in
  let v := after edges (constructed triangle "open") in
  let v' := after (edit true (add_vertices square)) v in
  (_edges (self w) = Some [(0, 1); (1, 2); (2, 3); (3, 0)]
   ∧ _draw_outline_edges w' = (Ok None, w'))
  ∧ (_vertices (self v') = NdRows square
     ∧ _draw_outline_edges v' = (Ok (Some [(0, 1); (1, 2)]), v')).
Proof.
  intros w w' v v'.
  pose (u := after (edit_enter true ;;; add_vertices square) v).
  assert (Hw : mutate (UpdateVertex 0 [5; 5]) w = (Ok tt, w'))
    by (vm_compute; reflexivity).
  assert (Hu : mutate Commit u = (Ok tt, v')) by (vm_compute; reflexivity).
  assert (Hclosed : has "open" (self w) = false) by (vm_compute; reflexivity).
  assert (Hopen : has "open" (self u) = true) by (vm_compute; reflexivity).
  assert (Hout : _outline (self u) = Some [(0, 1); (1, 2)])
    by (vm_compute; reflexivity).
  split; (split; [vm_compute; reflexivity|]).
  - exact (proj1 (proj2 (proj2 (proj2 (draw_outline_edges_reads_cache
                                         w square "closed"))
                           (UpdateVertex 0 [5; 5]) w' Hw))
             Hclosed eq_refl).
  - rewrite <- Hout.
    exact (proj2 (proj2 (proj2 (proj2 (draw_outline_edges_reads_cache
                                         u square "closed"))
                           Commit v' Hu))
             Hopen).
Defined.

(** C10 fails as stated: on an open shape whose [edges] were read once, a
    single-vertex update resets [_edges], and the accessor then returns the
    outline cached before the update, not [None]. *)
Lemma stale_outline_after_update :
  let w1 := after edges (constructed triangle "open") in
  let w2 := after (update_vertex 0 [5; 5]) w1 in
  result (update_vertex 0 [5; 5]) w1 = Ok tt
  ∧ _edges (self w2) = None
  ∧ result _draw_outline_edges w2 = Ok (Some [(0, 1); (1, 2)]).
Proof. repeat split; vm_compute; reflexivity. Qed.

(** * Further properties *)

(** ** Paths and open shapes *)

Lemma chain_no_wrap n :
  chain n = map (λ i, (i, i + 1)) (seqZ 0 (n - 1)).
Proof.
  unfold chain. apply map_ext_in. intros i Hi.
  apply list_elem_of_In, elem_of_seqZ in Hi.
  f_equal. apply Z.mod_small. lia.
Qed.

Lemma ring_closes_chain n : 1 ≤ n → ring n = chain n ++ [(n - 1, 0)].
Proof.
  intros Hn. unfold ring, chain.
  assert (Hseq : seqZ 0 n = seqZ 0 (n - 1) ++ [n - 1]).
  { replace n with ((n - 1) + 1) at 1 by lia.
    rewrite seqZ_app by lia. by f_equal. }
  rewrite Hseq, map_app. f_equal. simpl. do 2 f_equal.
  replace (n - 1 + 1) with n by lia. apply Z.mod_same. lia.
Qed.

Lemma init_accepts vertices a out :
  vertices ≠ [] → sanitize_rule vertices = Ok out →
  constructed vertices a = mkWorld (stored out (blank a)) []
  ∧ length out = length vertices.
Proof.
  intros Hne Hs. unfold constructed.
  rewrite (init_nonempty _ _ out) by done. split; [done|].
  by destruct (sanitize_rule_width _ _ Hs).
Qed.

(** X1: a shape built from at least one point of length 2 or 3, with 'path'
    and without 'point' among its attributes, is of kind 'path' and its
    [edges] are the pairs [(i, i+1)] for [i] from 0 to [n-2]: one pair fewer
    than it has points, and none that leads back to index 0. *)
Theorem path_edges_open_chain V a :
  Forall (λ v, length v = 2%nat ∨ length v = 3%nat) V →
  V ≠ [] →
  has "point" (blank a) = false →
  has "path" (blank a) = true →
  result kind (constructed V a) = Ok "path"%string
  ∧ result edges (constructed V a)
    = Ok (Some (map (λ i, (i, i + 1)) (seqZ 0 (len V - 1))))
  ∧ len (map (λ i, (i, i + 1)) (seqZ 0 (len V - 1))) = len V - 1.
Proof.
  intros HV Hne Hpoint Hpath.
  destruct (sanitize_rule_total _ HV) as [out Hs].
  destruct (init_accepts _ a _ Hne Hs) as [Hw Hlen]. rewrite Hw.
  assert (Hn : 1 ≤ len V) by (destruct V; [done|unfold len; simpl; lia]).
  split; [|split].
  - unfold result, kind, bind, read, ret. cbn.
    change (has "point" (stored out (blank a))) with (has "point" (blank a)).
    change (has "path" (stored out (blank a))) with (has "path" (blank a)).
    by rewrite Hpoint, Hpath.
  - unfold result. rewrite (edges_recompute _ out) by done. cbn.
    unfold derived_edges.
    change (has "path" (stored out (blank a))) with (has "path" (blank a)).
    rewrite Hpath, chain_no_wrap. unfold len. by rewrite Hlen.
  - unfold len in *. rewrite length_map, length_seqZ. lia.
Qed.

Lemma path_edges_open_chain_witness :
  result kind (constructed square "Path") = Ok "path"%string
  ∧ result edges (constructed square "Path")
    = Ok (Some [(0, 1); (1, 2); (2, 3)])
  ∧ len (map (λ i, (i, i + 1)) (seqZ 0 (len square - 1))) = len square - 1.
Proof.
  apply (path_edges_open_chain square "Path");
    [repeat constructor | discriminate | reflexivity | reflexivity].
Defined.

(** X2: when a shape without 'point' and 'path' but with 'open' is read for
    its [edges], the edges are the closed ring and the outline kept for
    [_draw_outline_edges] is that ring without its closing pair
    [(n-1, 0)]. *)
Theorem open_polygon_outline V a :
  Forall (λ v, length v = 2%nat ∨ length v = 3%nat) V →
  V ≠ [] →
  has "point" (blank a) = false →
  has "path" (blank a) = false →
  has "open" (blank a) = true →
  ∃ outline,
    result _draw_outline_edges (after edges (constructed V a))
      = Ok (Some outline)
    ∧ result edges (constructed V a)
      = Ok (Some (outline ++ [(len V - 1, 0)]))
    ∧ outline = map (λ i, (i, i + 1)) (seqZ 0 (len V - 1)).
Proof.
  intros HV Hne Hpoint Hpath Hopen.
  destruct (sanitize_rule_total _ HV) as [out Hs].
  destruct (init_accepts _ a _ Hne Hs) as [Hw Hlen]. rewrite Hw.
  assert (Hn : 1 ≤ len V) by (destruct V; [done|unfold len; simpl; lia]).
  assert (Hout : len out = len V) by (unfold len; by rewrite Hlen).
  exists (chain (len V)).
  unfold result, after. rewrite (edges_recompute _ out) by done.
  rewrite draw_outline_edges_run. cbn.
  unfold derived_outline, derived_edges.
  change (has "open" (recomputed (len out) (stored out (blank a))))
    with (has "open" (blank a)).
  change (has "open" (stored out (blank a))) with (has "open" (blank a)).
  change (has "path" (stored out (blank a))) with (has "path" (blank a)).
  rewrite Hopen, Hpath, Hout.
  split; [done|]. split; [|apply chain_no_wrap].
  by rewrite ring_closes_chain.
Qed.

Lemma open_polygon_outline_witness :
  ∃ outline,
    result _draw_outline_edges (after edges (constructed triangle "open"))
      = Ok (Some outline)
    ∧ result edges (constructed triangle "open")
      = Ok (Some (outline ++ [(len triangle - 1, 0)]))
    ∧ outline = map (λ i, (i, i + 1)) (seqZ 0 (len triangle - 1)).
Proof.
  apply (open_polygon_outline triangle "open");
    [repeat constructor | discriminate | reflexivity | reflexivity
    | reflexivity].
Defined.

(** X3: [edges] is memoized.  A read that returns leaves a world in which
    the next read returns the same value and changes nothing. *)
Theorem edges_memoized w r :
  result edges w = Ok r →
  edges (after edges w) = (Ok r, after edges w).
Proof.
  unfold result, after. intros Hr.
  destruct (has "point" (self w)) eqn:Hp.
  - rewrite (edges_point w) in Hr |- * by done. cbn [fst snd] in *.
    rewrite (edges_point w) by done. congruence.
  - destruct (_edges (self w)) as [e|] eqn:He.
    + rewrite (edges_cached w e) in Hr |- * by done. cbn [fst snd] in *.
      rewrite (edges_cached w e) by done. congruence.
    + destruct (_vertices (self w)) as [|rows] eqn:Hv.
      * by rewrite edges_empty_store in Hr.
      * rewrite (edges_recompute w rows) in Hr |- * by done.
        cbn [fst snd] in *.
        rewrite (edges_cached _ (derived_edges (self w) (len rows))) by done.
        congruence.
Qed.

Lemma edges_memoized_witness :
  edges (after edges (constructed square "closed"))
    = (Ok (Some [(0, 1); (1, 2); (2, 3); (3, 0)]),
       after edges (constructed square "closed")).
Proof.
  apply (edges_memoized (constructed square "closed")). reflexivity.
Defined.

(** ** Edit sessions *)

(** X4: opening an edit session on a shape that is already being edited
    raises, does not run the block and changes nothing. *)
Theorem edit_rejects_nested reset body w :
  _in_edit_mode (self w) = true →
  edit reset body w = (Raise (ValueError "Shape is being edited already"), w).
Proof.
  intros Hm. unfold edit, bind. by rewrite edit_enter_open.
Qed.

Lemma edit_rejects_nested_witness :
  let w := after (edit_enter true) (constructed square "closed") in
  edit false (add_vertex [1; 1]) w
    = (Raise (ValueError "Shape is being edited already"), w).
Proof.
  intros w. apply (edit_rejects_nested false (add_vertex [1; 1]) w).
  reflexivity.
Defined.

(** X5: outside an edit session [add_vertex] raises and changes nothing. *)
Theorem add_vertex_outside_session v w :
  _in_edit_mode (self w) = false →
  add_vertex v w
    = (Raise (ValueError "add_vertex only works in edit mode"), w).
Proof.
  intros Hm. unfold add_vertex, _ensure_editable, bind, read. cbn.
  by rewrite Hm.
Qed.

Lemma add_vertex_outside_session_witness :
  add_vertex [1; 1] (constructed square "closed")
    = (Raise (ValueError "add_vertex only works in edit mode"),
       constructed square "closed").
Proof.
  apply (add_vertex_outside_session [1; 1] (constructed square "closed")).
  reflexivity.
Defined.

Lemma add_vertex_inside v w buf :
  _in_edit_mode (self w) = true →
  _vertex_cache (self w) = Some buf →
  add_vertex v w
    = (Ok tt, mkWorld (with_vertex_cache (Some (buf ++ [v])) (self w))
                (tri_calls w)).
Proof.
  intros Hm Hc. unfold add_vertex, _ensure_editable, bind, read. cbn.
  rewrite Hm. cbn. by rewrite Hc.
Qed.

Lemma add_vertices_inside points w buf :
  _in_edit_mode (self w) = true →
  _vertex_cache (self w) = Some buf →
  add_vertices points w
    = (Ok tt, mkWorld (with_vertex_cache (Some (buf ++ points)) (self w))
                (tri_calls w)).
Proof.
  revert w buf. induction points as [|v rest IH]; intros w buf Hm Hc; simpl.
  - unfold ret. rewrite app_nil_r. destruct w as [s log]. simpl in *.
    f_equal. f_equal. destruct s; simpl in *. by rewrite Hc.
  - unfold bind. rewrite (add_vertex_inside _ _ buf) by done.
    rewrite (IH _ (buf ++ [v])) by done. cbn.
    by rewrite <- app_assoc.
Qed.



(** X7: an edit session whose block adds the points of a non-empty sequence
    that the sanitizer accepts ends with exactly the sanitized points in the
    vertex store and the shape out of edit mode.  This holds for both values
    of [reset]: the vertices the shape held before are replaced, not
    extended, also with [reset=False]. *)
Theorem edit_session_round_trip reset points out w :
  _in_edit_mode (self w) = false →
  points ≠ [] →
  _sanitize_vertex_list points 2 3 = Ok out →
  ∃ w', edit reset (add_vertices points) w = (Ok tt, w')
        ∧ _vertices (self w') = NdRows out
        ∧ _in_edit_mode (self w') = false
        ∧ tri_calls w' = tri_calls w.
Proof.
  intros Hm Hne Hs. rewrite sanitize_default_rule in Hs.
  unfold edit, bind. rewrite edit_enter_closed by done.
  rewrite (add_vertices_inside _ _ []) by (by destruct reset). simpl app.
  rewrite (edit_exit_accepts _ points out) by done.
  eexists. split; [done|]. by destruct reset.
Qed.

Lemma edit_session_round_trip_witness :
  ∃ w', edit false (add_vertices [[0; 0]; [1; 0; 9]; [1; 1]])
          (constructed square "closed") = (Ok tt, w')
        ∧ _vertices (self w') = NdRows [[0; 0]; [1; 0]; [1; 1]]
        ∧ _in_edit_mode (self w') = false
        ∧ tri_calls w' = tri_calls (constructed square "closed").
Proof.
  apply (edit_session_round_trip false [[0; 0]; [1; 0; 9]; [1; 1]]
           [[0; 0]; [1; 0]; [1; 1]] (constructed square "closed"));
    [reflexivity | discriminate | reflexivity].
Defined.

(** X8: an edit session whose block adds no vertex cannot be closed: the
    commit stores the empty array and then raises, and the shape is left in
    edit mode with no vertices. *)
Theorem edit_empty_session_raises reset w :
  _in_edit_mode (self w) = false →
  result (edit reset (ret tt)) w
    = Raise (ValueError "all the input arrays must have same number of dimensions")
  ∧ _in_edit_mode (self (after (edit reset (ret tt)) w)) = true
  ∧ _vertices (self (after (edit reset (ret tt)) w)) = NdEmpty.
Proof.
  intros Hm. unfold result, after, edit, bind.
  rewrite edit_enter_closed by done. unfold ret.
  unfold edit_exit, bind, read. cbn. by destruct reset.
Qed.

Lemma edit_empty_session_raises_witness :
  result (edit false (ret tt)) (constructed square "closed")
    = Raise (ValueError "all the input arrays must have same number of dimensions")
  ∧ _in_edit_mode (self (after (edit false (ret tt))
                           (constructed square "closed"))) = true
  ∧ _vertices (self (after (edit false (ret tt))
                       (constructed square "closed"))) = NdEmpty.
Proof.
  apply (edit_empty_session_raises false (constructed square "closed")).
  reflexivity.
Defined.

(** ** Single-vertex update: indices *)

(** X9: a negative index counts from the end.  On a store of [n] rows of
    width 2 and for [idx] in [-n, -1], [update_vertex] with a point of
    length 2 puts the point at row [n + idx] and leaves the other rows as
    they were. *)
Theorem update_vertex_negative_index w rows idx p :
  _vertices (self w) = NdRows rows →
  Forall (λ r, length r = 2%nat) rows →
  - len rows ≤ idx < 0 →
  length p = 2%nat →
  ∃ rows',
    update_vertex idx p w
      = (Ok tt, mkWorld (updated rows' (self w)) (tri_calls w))
    ∧ length rows' = length rows
    ∧ rows' !! Z.to_nat (len rows + idx) = Some p
    ∧ ∀ j, j ≠ Z.to_nat (len rows + idx) → rows' !! j = rows !! j.
Proof.
  intros Hv Hw Hidx Hp. unfold len in Hidx.
  exists (<[Z.to_nat (len rows + idx) := p]> rows).
  assert (Hlt : (Z.to_nat (len rows + idx) < length rows)%nat)
    by (unfold len; lia).
  split; [|split; [apply length_insert|split]].
  - unfold update_vertex, len. rewrite Hp. simpl.
    unfold bind, read, lift, setitem. rewrite Hv. unfold len.
    destruct (Z.ltb_spec idx (- Z.of_nat (length rows))); [lia|].
    destruct (Z.leb_spec (Z.of_nat (length rows)) idx); [lia|].
    destruct (Z.ltb_spec idx 0); [|lia]. simpl.
    replace (idx + Z.of_nat (length rows)) with (Z.of_nat (length rows) + idx)
      by lia.
    unfold len in Hlt.
    destruct (lookup_lt_is_Some_2 rows _ Hlt) as [r Hr]. rewrite Hr.
    rewrite (proj1 (Forall_lookup _ _) Hw _ _ Hr), Hp. done.
  - by apply list_lookup_insert_eq.
  - intros j Hj. by apply list_lookup_insert_ne.
Qed.

Lemma update_vertex_negative_index_witness :
  ∃ rows',
    update_vertex (-1) [5; 5] (constructed square "closed")
      = (Ok tt, mkWorld (updated rows' (self (constructed square "closed")))
                  (tri_calls (constructed square "closed")))
    ∧ length rows' = length square
    ∧ rows' !! Z.to_nat (len square + -1) = Some [5; 5]
    ∧ ∀ j, j ≠ Z.to_nat (len square + -1) → rows' !! j = square !! j.
Proof.
  apply (update_vertex_negative_index (constructed square "closed") square
           (-1) [5; 5]);
    [reflexivity | repeat constructor | unfold len; simpl; lia | reflexivity].
Defined.

(** X10: with a point of length 2, an index outside [-n, n-1], or any index
    on a shape that holds no vertex, raises the index error and changes
    nothing: neither the store nor any cache. *)
Theorem update_vertex_out_of_range w idx p :
  length p = 2%nat →
  _vertices (self w) = NdEmpty
  ∨ (∃ rows, _vertices (self w) = NdRows rows
             ∧ (idx < - len rows ∨ len rows ≤ idx)) →
  update_vertex idx p w = (Raise IndexError, w).
Proof.
  intros Hp H. unfold update_vertex, len. rewrite Hp. simpl.
  unfold bind, read, lift, setitem.
  destruct H as [->|(rows & -> & Hidx)]; [done|]. unfold len in *.
  destruct (Z.ltb_spec idx (- Z.of_nat (length rows)));
    destruct (Z.leb_spec (Z.of_nat (length rows)) idx); simpl; try done. lia.
Qed.

Lemma update_vertex_out_of_range_witness :
  update_vertex 4 [5; 5] (constructed square "closed")
    = (Raise IndexError, constructed square "closed")
  ∧ update_vertex 0 [5; 5] (constructed [] "closed")
    = (Raise IndexError, constructed [] "closed").
Proof.
  split.
  - apply (update_vertex_out_of_range (constructed square "closed") 4 [5; 5]);
      [reflexivity|]. right. exists square. split; [reflexivity|].
    right. unfold len. simpl. lia.
  - apply (update_vertex_out_of_range (constructed [] "closed") 0 [5; 5]);
      [reflexivity|]. by left.
Defined.

(** ** Construction and assignment *)

Lemma sanitize_rule_accepts vertices :
  Forall (λ v, length v = 2%nat ∨ length v = 3%nat) vertices →
  sanitize_rule vertices = Ok (map (take 2) vertices).
Proof.
  induction 1 as [|v rest Hv _ IH]; simpl; [done|].
  rewrite IH. unfold sanitize_point_rule.
  destruct (decide (length v = 2%nat)) as [H2|H2].
  - by rewrite take_ge by lia.
  - destruct (decide (length v = 3%nat)); [done|]. by destruct Hv.
Qed.

Lemma sanitize_rule_accepted vertices out :
  sanitize_rule vertices = Ok out →
  Forall (λ v, length v = 2%nat ∨ length v = 3%nat) vertices.
Proof.
  revert out. induction vertices as [|v rest IH]; intros out; simpl; [done|].
  unfold sanitize_point_rule.
  destruct (decide (length v = 2%nat)) as [H2|H2];
    [|destruct (decide (length v = 3%nat)) as [H3|H3]]; try done;
    destruct (sanitize_rule rest) as [o|]; try done; intros _;
    constructor; eauto.
Qed.

Lemma sanitize_rule_refusal vertices e :
  sanitize_rule vertices = Raise e →
  e = ValueError "unexpected vertex dimension".
Proof.
  induction vertices as [|v rest IH]; simpl; [done|].
  destruct (sanitize_point_rule v); [|congruence].
  destruct (sanitize_rule rest); [done|]. intros [= <-]. by apply IH.
Qed.

Lemma init_run vertices a :
  __init__ vertices a =
  match vertices with
  | [] => (Ok tt, mkWorld (blank a) [])
  | _ =>
      match sanitize_rule vertices with
      | Ok out => (Ok tt, mkWorld (stored out (blank a)) [])
      | Raise e => (Raise e, mkWorld (blank a) [])
      end
  end.
Proof.
  destruct vertices as [|v rest]; [done|].
  destruct (sanitize_rule (v :: rest)) as [out|e] eqn:Hs.
  - by apply init_nonempty.
  - unfold __init__.
    replace (0 <? len (v :: rest)) with true
      by (symmetry; apply Z.ltb_lt; unfold len; simpl; lia).
    by rewrite (set_vertices_rejects _ e).
Qed.

(** X11: [PShape(vertices)] succeeds exactly when every point has length 2
    or 3, the empty list included; the store then holds the first two
    components of every point, in order. *)
Theorem construction_accepts_iff V a :
  ((__init__ V a).1 = Ok tt
   ↔ Forall (λ v, length v = 2%nat ∨ length v = 3%nat) V)
  ∧ (Forall (λ v, length v = 2%nat ∨ length v = 3%nat) V →
     _vertices (self (constructed V a)) = np_array (map (take 2) V)).
Proof.
  unfold constructed. rewrite init_run. split; [split|].
  - destruct V as [|v rest]; [done|].
    destruct (sanitize_rule (v :: rest)) as [out|e] eqn:Hs; [|done].
    intros _. by apply (sanitize_rule_accepted _ out).
  - intros HV. destruct V as [|v rest]; [done|].
    by rewrite (sanitize_rule_accepts _ HV).
  - intros HV. destruct V as [|v rest]; [done|].
    by rewrite (sanitize_rule_accepts _ HV).
Qed.

Lemma construction_accepts_iff_witness :
  _vertices (self (constructed [[1; 2; 3]; [4; 5]] "closed"))
    = NdRows [[1; 2]; [4; 5]]
  ∧ ¬ Forall (λ v, length v = 2%nat ∨ length v = 3%nat) [[1; 2]; [7]].
Proof.
  split.
  - apply (proj2 (construction_accepts_iff [[1; 2; 3]; [4; 5]] "closed")).
    constructor; [by right|]. constructor; [by left|]. constructor.
  - intros H.
    apply (proj1 (construction_accepts_iff [[1; 2]; [7]] "closed")) in H.
    discriminate H.
Defined.

(** X12: a successful assignment through the setter leaves rows of width 2
    in the store, as many as there were points, and beside them the copy in
    [_outline_vertices]: the same rows, each with a third component 0. *)
Theorem setter_keeps_flat_copy V w w' :
  set_vertices V w = (Ok tt, w') →
  ∃ rows,
    _vertices (self w') = NdRows rows
    ∧ length rows = length V
    ∧ Forall (λ r, length r = 2%nat) rows
    ∧ _outline_vertices (self w') = Some (NdRows (map (λ r, r ++ [0]) rows))
    ∧ Forall (λ r, length r = 3%nat ∧ r !! 2%nat = Some 0)
        (map (λ r, r ++ [0]) rows).
Proof.
  intros H. destruct (set_vertices_inv _ _ _ H) as (out & _ & Hs & ->).
  destruct (sanitize_rule_width _ _ Hs) as [Hlen Hw].
  exists out. repeat split; try done.
  apply Forall_forall. intros r Hr. apply list_elem_of_In, in_map_iff in Hr.
  destruct Hr as (r0 & <- & Hr0). apply list_elem_of_In in Hr0.
  pose proof (proj1 (Forall_forall _ _) Hw _ Hr0) as H2. simpl in H2.
  rewrite length_app. simpl. split; [lia|].
  rewrite lookup_app_r by lia. by rewrite H2.
Qed.

Lemma setter_keeps_flat_copy_witness :
  ∃ rows,
    _vertices (self (after (set_vertices triangle) (constructed square "closed")))
      = NdRows rows
    ∧ length rows = length triangle
    ∧ Forall (λ r, length r = 2%nat) rows
    ∧ _outline_vertices
        (self (after (set_vertices triangle) (constructed square "closed")))
      = Some (NdRows (map (λ r, r ++ [0]) rows))
    ∧ Forall (λ r, length r = 3%nat ∧ r !! 2%nat = Some 0)
        (map (λ r, r ++ [0]) rows).
Proof.
  apply (setter_keeps_flat_copy triangle (constructed square "closed")).
  reflexivity.
Defined.

(** X13: an assignment of a non-empty sequence that the setter refuses
    raises the dimension error and changes nothing: the store, the copy and
    every cache are as before. *)
Theorem setter_refusal_changes_nothing V w e :
  V ≠ [] →
  result (set_vertices V) w = Raise e →
  e = ValueError "unexpected vertex dimension"
  ∧ after (set_vertices V) w = w.
Proof.
  intros Hne. unfold result, after.
  destruct (sanitize_rule V) as [out|e'] eqn:Hs.
  - by rewrite (set_vertices_accepts _ out).
  - rewrite (set_vertices_rejects _ e') by done. simpl. intros [= <-].
    split; [|done]. by apply (sanitize_rule_refusal V).
Qed.

Lemma setter_refusal_changes_nothing_witness :
  ValueError "unexpected vertex dimension"
    = ValueError "unexpected vertex dimension"
  ∧ after (set_vertices [[0; 0]; [1]]) (constructed square "closed")
    = constructed square "closed".
Proof.
  apply (setter_refusal_changes_nothing [[0; 0]; [1]]
           (constructed square "closed"));
    [discriminate | reflexivity].
Defined.

(** ** Triangulation: results and failures *)

Lemma edges_world w :
  after edges w = w
  ∨ (∃ rows, _vertices (self w) = NdRows rows
             ∧ after edges w
               = mkWorld (recomputed (len rows) (self w)) (tri_calls w)).
Proof.
  unfold after.
  destruct (edges_cases w) as [[r ->]|(rows & Hv & ->)]; [by left|].
  right. by exists rows.
Qed.

Section TriangulationProperties.

Variable triangulate :
  ndarray → option (list (Z * Z)) → outcome Triangulation.

(** X14: on a shape that does not require triangulation (a point or path
    shape) no draw accessor calls the service: [_draw_faces] is empty,
    [_draw_vertices] and [_draw_outline_vertices] are the vertex store, and
    [_draw_edges] is [edges]. *)
Theorem draw_without_triangulation w :
  _tri_required (self w) = false →
  _draw_faces triangulate w = (Ok (Some []), w)
  ∧ _draw_vertices triangulate w = (Ok (Some (_vertices (self w))), w)
  ∧ _draw_outline_vertices triangulate w
    = (Ok (Some (_vertices (self w))), w)
  ∧ _draw_edges triangulate w = edges w
  ∧ tri_calls (after (_draw_edges triangulate) w) = tri_calls w.
Proof.
  intros Hreq.
  assert (Hv : _draw_vertices triangulate w
               = (Ok (Some (_vertices (self w))), w)).
  { unfold _draw_vertices, bind, read, ret. cbn. rewrite Hreq. cbn.
    by rewrite Hreq. }
  assert (He : _draw_edges triangulate w = edges w).
  { unfold _draw_edges, bind at 1, read at 1. cbn. by rewrite Hreq. }
  split; [|split; [done|split; [|split; [done|]]]].
  - unfold _draw_faces, bind, read, ret. cbn. by rewrite Hreq.
  - unfold _draw_outline_vertices, bind at 1, read at 1. cbn.
    destruct (has "open" (self w)); [done|]. reflexivity.
  - unfold after. rewrite He. apply edges_keeps_log.
Qed.

Lemma draw_served a w e w1 t :
  _tri_required (self w) = true →
  cache_absent a (self w) →
  edges w = (Ok e, w1) →
  triangulate (_vertices (self w)) e = Ok t →
  draw triangulate a w
    = (Ok (served a t),
       mkWorld (triangulated t (self w1))
         (tri_calls w1 ++ [(_vertices (self w), e)])).
Proof.
  intros Hreq Habs He Ht.
  assert (Hreq1 : _tri_required (self w1) = true).
  { pose proof (edges_world w) as Hw. unfold after in Hw. rewrite He in Hw.
    simpl in Hw. destruct Hw as [->|(rows & _ & ->)]; done. }
  rewrite draw_absent by done.
  rewrite (retriangulate_run _ _ _ _ He), Ht. cbn. rewrite Hreq1.
  by destruct a.
Qed.

Lemma draw_refused a w e w1 x :
  _tri_required (self w) = true →
  cache_absent a (self w) →
  edges w = (Ok e, w1) →
  triangulate (_vertices (self w)) e = Raise x →
  draw triangulate a w
    = (Raise x,
       mkWorld (self w1) (tri_calls w1 ++ [(_vertices (self w), e)])).
Proof.
  intros Hreq Habs He Ht. rewrite draw_absent by done.
  by rewrite (retriangulate_run _ _ _ _ He), Ht.
Qed.

(** X15: on a shape that requires triangulation and has none cached, a
    triangulating accessor passes the vertex store and [edges] to the
    service, once, and returns what the service answered: its points, and
    its edges and faces, with an empty array in place of an answer that is
    not an array. *)
Theorem draw_returns_service_answer a w e t :
  _tri_required (self w) = true →
  cache_absent a (self w) →
  result edges w = Ok e →
  triangulate (_vertices (self w)) e = Ok t →
  result (draw triangulate a) w = Ok (served a t)
  ∧ tri_calls (after (draw triangulate a) w)
    = tri_calls w ++ [(_vertices (self w), e)].
Proof.
  intros Hreq Habs He Ht. unfold result, after in *.
  destruct (edges w) as [r w1] eqn:Hedges. simpl in He. subst r.
  rewrite (draw_served a w e w1 t) by done. cbn. split; [done|].
  pose proof (edges_keeps_log w) as Hlog. unfold after in Hlog.
  rewrite Hedges in Hlog. simpl in Hlog. by rewrite Hlog.
Qed.

Lemma draw_failure_step a w rows x :
  _tri_required (self w) = true →
  cache_absent a (self w) →
  _vertices (self w) = NdRows rows →
  (∀ e, triangulate (NdRows rows) e = Raise x) →
  ∃ w', draw triangulate a w = (Raise x, w')
        ∧ _tri_required (self w') = true
        ∧ cache_absent a (self w')
        ∧ _vertices (self w') = NdRows rows
        ∧ length (tri_calls w') = S (length (tri_calls w)).
Proof.
  intros Hreq Habs Hv Hx.
  destruct (edges_on_rows _ _ Hv) as (e & w1 & He).
  eexists. split.
  - apply (draw_refused a w (Some e) w1 x); try done. rewrite Hv. apply Hx.
  - pose proof (edges_world w) as Hw. unfold after in Hw. rewrite He in Hw.
    simpl in Hw. cbn [self tri_calls]. rewrite length_app. simpl.
    destruct Hw as [->|(rows' & _ & ->)]; cbn;
      (repeat split; [done|by destruct a|done|lia]).
Qed.

(** X16: a failure of the service is not cached.  When the service raises,
    the accessor raises the same exception and leaves the cache absent, so
    the next read calls the service again: two reads, two calls. *)
Theorem failed_triangulation_not_cached a w rows x :
  _tri_required (self w) = true →
  cache_absent a (self w) →
  _vertices (self w) = NdRows rows →
  (∀ e, triangulate (NdRows rows) e = Raise x) →
  result (draw triangulate a) w = Raise x
  ∧ cache_absent a (self (after (draw triangulate a) w))
  ∧ result (draw triangulate a) (after (draw triangulate a) w) = Raise x
  ∧ length (tri_calls (after (draw triangulate a)
                         (after (draw triangulate a) w)))
    = S (S (length (tri_calls w))).
Proof.
  intros Hreq Habs Hv Hx.
  destruct (draw_failure_step a w rows x Hreq Habs Hv Hx)
    as (w1 & H1 & Hreq1 & Habs1 & Hv1 & Hlen1).
  destruct (draw_failure_step a w1 rows x Hreq1 Habs1 Hv1 Hx)
    as (w2 & H2 & _ & _ & _ & Hlen2).
  unfold result, after. rewrite H1. cbn [fst snd]. rewrite H2. cbn [fst snd].
  repeat split; try done. lia.
Qed.

Lemma draw_outline_vertices_run w :
  _draw_outline_vertices triangulate w
  = if has "open" (self w) then _draw_vertices triangulate w
    else (Ok (Some (_vertices (self w))), w).
Proof.
  unfold _draw_outline_vertices, bind at 1, read at 1. cbn.
  by destruct (has "open" (self w)).
Qed.

(** C5, as the code has it: on a shape that requires triangulation and whose
    cache is absent, when [edges] can be read and the service answers, a
    read of [_draw_faces] (or of [_draw_vertices] or [_draw_edges]) returns
    the answer and has called the service exactly once, on the vertex store
    and the edges; after it, a read of the same accessor returns the same
    value, and no draw accessor changes the world, and so the log of calls.
    [_draw_outline_vertices] is [_draw_vertices] on a shape with 'open' and
    the plain vertex store on any other. *)
Theorem draw_triangulates_once a b w e t :
  _tri_required (self w) = true →
  cache_absent a (self w) →
  result edges w = Ok e →
  triangulate (_vertices (self w)) e = Ok t →
  result (draw triangulate a) w = Ok (served a t)
  ∧ tri_calls (after (draw triangulate a) w)
    = tri_calls w ++ [(_vertices (self w), e)]
  ∧ draw triangulate a (after (draw triangulate a) w)
    = (Ok (served a t), after (draw triangulate a) w)
  ∧ after (draw triangulate b) (after (draw triangulate a) w)
    = after (draw triangulate a) w
  ∧ after (_draw_outline_vertices triangulate) (after (draw triangulate a) w)
    = after (draw triangulate a) w
  ∧ after _draw_outline_edges (after (draw triangulate a) w)
    = after (draw triangulate a) w
  ∧ _draw_outline_vertices triangulate w
    = (if has "open" (self w) then _draw_vertices triangulate w
       else (Ok (Some (_vertices (self w))), w)).
Proof.
  intros Hreq Habs He Ht. unfold result, after in *.
  destruct (edges w) as [r w1] eqn:Hedges. simpl in He. subst r.
  pose proof (edges_keeps_log w) as Hlog. unfold after in Hlog.
  rewrite Hedges in Hlog. simpl in Hlog.
  assert (Hre : _retriangulate triangulate w
                = (Ok tt, mkWorld (triangulated t (self w1))
                            (tri_calls w1 ++ [(_vertices (self w), e)])))
    by (by rewrite (retriangulate_run _ _ _ _ Hedges), Ht).
  rewrite (draw_served a w e w1 t) by done. cbn [fst snd].
  set (w2 := mkWorld (triangulated t (self w1))
               (tri_calls w1 ++ [(_vertices (self w), e)])) in *.
  destruct (draw_after_retriangulate _ _ _ a Hreq Hre) as (_ & Hreq2 & Ha).
  destruct (draw_after_retriangulate _ _ _ b Hreq Hre) as (_ & _ & Hb).
  destruct (draw_after_retriangulate _ _ _ draw_vertices Hreq Hre)
    as (_ & _ & Hv).
  assert (Hcached : cached a (self w2) = served a t) by (by destruct a).
  split; [done|]. split; [cbn; by rewrite Hlog|].
  split; [by rewrite Ha, Hcached|]. split; [by rewrite Hb|].
  split; [|split; [by rewrite draw_outline_edges_run
                  |apply draw_outline_vertices_run]].
  rewrite draw_outline_vertices_run.
  destruct (has "open" (self w2)); [|done].
  unfold draw in Hv. unfold bind at 1 in Hv.
  destruct (_draw_vertices triangulate w2) as [[v|x] w3]; [|done].
  cbn [snd]. by inversion Hv.
Qed.

End TriangulationProperties.

Lemma draw_triangulates_once_witness :
  let w := constructed square "closed" in
  let w1 := after (draw sample_triangulate draw_faces) w in
  result (draw sample_triangulate draw_faces) w = Ok (Faces (Some [(0, 1, 2)]))
  ∧ tri_calls w1
    = [(NdRows square, Some [(0, 1); (1, 2); (2, 3); (3, 0)])]
  ∧ draw sample_triangulate draw_faces w1 = (Ok (Faces (Some [(0, 1, 2)])), w1)
  ∧ after (draw sample_triangulate draw_vertices) w1 = w1.
Proof.
  intros w w1.
  destruct (draw_triangulates_once sample_triangulate draw_faces draw_vertices
              w (Some [(0, 1); (1, 2); (2, 3); (3, 0)])
              (mkTriangulation (NdRows square)
                 (Some [(0, 1); (1, 2); (2, 3); (3, 0)]) (Some [(0, 1, 2)]))
              eq_refl eq_refl eq_refl eq_refl)
    as (Hr & Hlog & Hsame & Hother & _).
  split; [exact Hr|]. split; [exact Hlog|]. split; [exact Hsame|exact Hother].
Defined.

(** C5 fails as stated: the number of calls depends on how the reads end.
    With a service that raises, two reads of [_draw_faces] make two calls;
    on a polygon that holds no vertex [edges] cannot be read, and two reads
    make no call at all. *)
Lemma draw_call_count_varies :
  (let w := constructed square "closed" in
   _tri_required (self w) = true
   ∧ length (tri_calls (after (draw failing_triangulate draw_faces)
                          (after (draw failing_triangulate draw_faces) w)))
     = 2%nat)
  ∧ (let w := constructed [] "closed" in
     _tri_required (self w) = true
     ∧ result (draw sample_triangulate draw_faces) w
       = Raise (ValueError "not enough values to unpack (expected 2, got 1)")
     ∧ tri_calls (after (draw sample_triangulate draw_faces)
                    (after (draw sample_triangulate draw_faces) w))
       = []).
Proof. repeat split; vm_compute; reflexivity. Qed.

Lemma draw_without_triangulation_witness :
  let w := constructed square "path" in
  _draw_faces sample_triangulate w = (Ok (Some []), w)
  ∧ _draw_vertices sample_triangulate w = (Ok (Some (_vertices (self w))), w)
  ∧ _draw_outline_vertices sample_triangulate w
    = (Ok (Some (_vertices (self w))), w)
  ∧ _draw_edges sample_triangulate w = edges w
  ∧ tri_calls (after (_draw_edges sample_triangulate) w) = tri_calls w.
Proof.
  intros w. apply (draw_without_triangulation sample_triangulate w).
  reflexivity.
Defined.

Lemma draw_returns_service_answer_witness :
  let w := constructed square "closed" in
  result (draw degenerate_triangulate draw_faces) w = Ok (Faces (Some []))
  ∧ tri_calls (after (draw degenerate_triangulate draw_faces) w)
    = tri_calls w
        ++ [(_vertices (self w), Some [(0, 1); (1, 2); (2, 3); (3, 0)])].
Proof.
  intros w.
  apply (draw_returns_service_answer degenerate_triangulate draw_faces w
           (Some [(0, 1); (1, 2); (2, 3); (3, 0)])
           (mkTriangulation (NdRows square) None None));
    reflexivity.
Defined.

Lemma failed_triangulation_not_cached_witness :
  let w := constructed square "closed" in
  result (draw failing_triangulate draw_faces) w = Raise ExternalError
  ∧ cache_absent draw_faces
      (self (after (draw failing_triangulate draw_faces) w))
  ∧ result (draw failing_triangulate draw_faces)
      (after (draw failing_triangulate draw_faces) w) = Raise ExternalError
  ∧ length (tri_calls (after (draw failing_triangulate draw_faces)
                         (after (draw failing_triangulate draw_faces) w)))
    = S (S (length (tri_calls w))).
Proof.
  intros w.
  apply (failed_triangulation_not_cached failing_triangulate draw_faces w
           square ExternalError);
    reflexivity.
Defined.

(** ** Invariants of every script *)

Lemma after_bind {A B} (m : M A) (k : A → M B) w :
  after (bind m k) w
  = match m w with
    | (Ok a, w') => after (k a) w'
    | (Raise _, w') => w'
    end.
Proof. unfold after, bind. by destruct (m w) as [[a|e] w']. Qed.

Lemma after_void {A} (m : M A) w : after (x <- m ;; ret tt) w = after m w.
Proof. rewrite after_bind. unfold after. by destruct (m w) as [[a|e] w']. Qed.

Lemma set_vertices_touched V w :
  touched (self w) (self (after (set_vertices V) w)).
Proof.
  unfold after. destruct V as [|v rest].
  - rewrite set_vertices_empty. apply touched_emptied.
  - destruct (sanitize_rule (v :: rest)) as [out|e] eqn:Hs.
    + rewrite (set_vertices_accepts _ out) by done.
      destruct (sanitize_rule_width _ _ Hs) as [Hlen Hw].
      apply touched_stored; [|done]. by destruct out.
    + rewrite (set_vertices_rejects _ e) by done. apply touched_not.
Qed.

Lemma edges_touched w : touched (self w) (self (after edges w)).
Proof.
  destruct (edges_world w) as [->|(rows & _ & ->)];
    [apply touched_not|apply touched_recomputed].
Qed.

Lemma update_vertex_touched idx p w :
  touched (self w) (self (after (update_vertex idx p) w)).
Proof.
  unfold after, update_vertex.
  destruct (Z.eqb_spec (len p) 2) as [Hp|Hp]; cbn; [|apply touched_not].
  unfold bind, read, lift, setitem.
  destruct (_vertices (self w)) as [|rows] eqn:Hv; [apply touched_not|].
  destruct ((idx <? - len rows) || (len rows <=? idx)); [apply touched_not|].
  destruct (rows !! _) as [r|]; [|apply touched_not].
  destruct (len r =? len p); [|apply touched_not].
  cbn. apply (touched_updated _ rows); [done|]. unfold len in Hp. lia.
Qed.

Lemma add_vertex_touched v w :
  touched (self w) (self (after (add_vertex v) w)).
Proof.
  unfold after, add_vertex, _ensure_editable, bind, read. cbn.
  destruct (_in_edit_mode (self w)); cbn; [|apply touched_not].
  destruct (_vertex_cache (self w)); cbn;
    [apply touched_buffered|apply touched_not].
Qed.

Lemma edit_enter_touched reset w :
  touched (self w) (self (after (edit_enter reset) w)).
Proof.
  unfold after. destruct (_in_edit_mode (self w)) eqn:Hm.
  - rewrite edit_enter_open by done. apply touched_not.
  - rewrite edit_enter_closed by done. apply touched_opened.
Qed.

Lemma edit_exit_touched w :
  touched (self w) (self (after edit_exit w)).
Proof.
  unfold after, edit_exit, bind at 1, read at 1. cbn.
  destruct (_vertex_cache (self w)) as [buf|]; [|apply touched_not].
  unfold bind at 1.
  destruct (set_vertices buf w) as [[[]|e] w1] eqn:Hset.
  - destruct (set_vertices_inv _ _ _ Hset) as (out & Hne & Hs & ->).
    destruct (sanitize_rule_width _ _ Hs) as [Hlen Hw]. cbn.
    apply touched_committed; [|done].
    destruct out; [by destruct buf|done].
  - pose proof (set_vertices_touched buf w) as H. unfold after in H.
    by rewrite Hset in H.
Qed.

Lemma edit_touched reset body w :
  (∀ w', touched (self w') (self (after body w'))) →
  touched (self w) (self (after (edit reset body) w)).
Proof.
  intros Hbody. unfold edit. rewrite after_bind.
  pose proof (edit_enter_touched reset w) as H1. unfold after in H1.
  destruct (edit_enter reset w) as [[[]|e] w1]; [|done].
  apply (touched_twice _ _ _ H1). rewrite after_bind.
  pose proof (Hbody w1) as H2. unfold after in H2.
  destruct (body w1) as [[[]|e] w2]; [|done].
  apply (touched_twice _ _ _ H2). apply edit_exit_touched.
Qed.

Lemma kind_reads w : after kind w = w.
Proof.
  unfold after, kind, bind, read, ret. cbn.
  by destruct (has "point" (self w)), (has "path" (self w)).
Qed.

Section ScriptProperties.

Variable triangulate :
  ndarray → option (list (Z * Z)) → outcome Triangulation.

Lemma retriangulate_touched w :
  touched (self w) (self (after (_retriangulate triangulate) w)).
Proof.
  pose proof (edges_touched w) as He. unfold after in *.
  destruct (edges w) as [[e|x] w1] eqn:Hedges.
  - rewrite (retriangulate_run _ _ _ _ Hedges).
    destruct (triangulate (_vertices (self w)) e); [|done].
    apply (touched_twice _ _ _ He). apply touched_triangulated.
  - unfold _retriangulate, bind at 1, vertices, read at 1.
    unfold bind at 1. by rewrite Hedges.
Qed.

Lemma draw_world a w :
  after (draw triangulate a) w = w
  ∨ after (draw triangulate a) w = after (_retriangulate triangulate) w
  ∨ after (draw triangulate a) w = after edges w.
Proof.
  unfold after.
  destruct a;
    unfold draw, _draw_vertices, _draw_edges, _draw_faces, bind, read, ret;
    cbn -[edges]; destruct (_tri_required (self w)) eqn:Hreq; cbn -[edges];
    rewrite ?Hreq; cbn -[edges].
  - destruct (_tri_vertices (self w)); cbn -[edges]; rewrite ?Hreq;
      [by left|].
    right; left.
    destruct (_retriangulate triangulate w) as [[[]|?] w1]; cbn; [|done].
    by destruct (_tri_required (self w1)).
  - by left.
  - destruct (_tri_edges (self w)); cbn -[edges]; [by left|].
    right; left.
    by destruct (_retriangulate triangulate w) as [[[]|?] w1].
  - right; right. by destruct (edges w) as [[?|?] ?].
  - destruct (_tri_faces (self w)); cbn -[edges]; [by left|].
    right; left.
    by destruct (_retriangulate triangulate w) as [[[]|?] w1].
  - by left.
Qed.

Lemma draw_touched a w :
  touched (self w) (self (after (draw triangulate a) w)).
Proof.
  destruct (draw_world a w) as [->|[->| ->]];
    [apply touched_not|apply retriangulate_touched|apply edges_touched].
Qed.

Lemma draw_outline_vertices_touched w :
  touched (self w) (self (after (_draw_outline_vertices triangulate) w)).
Proof.
  unfold after, _draw_outline_vertices, bind at 1, read at 1. cbn.
  destruct (has "open" (self w)); [|apply touched_not].
  pose proof (draw_touched draw_vertices w) as H.
  unfold after, draw in H. unfold bind at 1 in H.
  by destruct (_draw_vertices triangulate w) as [[?|?] ?].
Qed.

Lemma run_call_touched c w :
  touched (self w) (self (after (run_call triangulate c) w)).
Proof.
  destruct c; simpl; rewrite ?after_void.
  - apply touched_not.
  - apply set_vertices_touched.
  - apply edges_touched.
  - rewrite kind_reads. apply touched_not.
  - apply draw_touched.
  - apply draw_outline_vertices_touched.
  - unfold after. rewrite draw_outline_edges_run. apply touched_not.
  - apply add_vertex_touched.
  - apply update_vertex_touched.
Qed.

Lemma run_touched p w :
  touched (self w) (self (after (run triangulate p) w)).
Proof.
  revert w. induction p as [c|p IHp q IHq|p IHp|reset body IH]; intros w.
  - apply run_call_touched.
  - simpl. rewrite after_bind.
    pose proof (IHp w) as H1. unfold after in H1.
    destruct (run triangulate p w) as [[[]|e] w1]; [|done].
    apply (touched_twice _ _ _ H1). apply IHq.
  - apply IHp.
  - simpl. by apply edit_touched.
Qed.

End ScriptProperties.

Lemma Forall_insert_row (rows : list (list Z)) i p :
  Forall (λ r, length r = 2%nat) rows → length p = 2%nat →
  Forall (λ r, length r = 2%nat) (<[i := p]> rows).
Proof.
  intros Hrows Hp. apply Forall_forall. intros r Hr.
  apply list_elem_of_lookup in Hr as [j Hj].
  destruct (decide (i = j)) as [->|Hne].
  - destruct (decide (j < length rows)%nat) as [Hlt|Hge].
    + rewrite list_lookup_insert_eq in Hj by done. congruence.
    + rewrite list_insert_ge in Hj by lia.
      by apply (proj1 (Forall_lookup _ _) Hrows j).
  - rewrite list_lookup_insert_ne in Hj by done.
    by apply (proj1 (Forall_lookup _ _) Hrows j).
Qed.

Ltac close_well_formed :=
  repeat split; try done; try (by left); try (by intros [? [=]]);
  try (by eexists); try (right; repeat split; by eexists).

Lemma touched_well_formed s0 s s' :
  touched s s' → well_formed s0 s → well_formed s0 s'.
Proof.
  induction 1 as [s|s|s out Hne Hw|s out Hne Hw|s rows i p Hv Hp|s n|s t
                 |s buf|s reset|s1 s2 s3 _ IH1 _ IH2];
    try (intros H; by apply IH2, IH1);
    unfold well_formed, store_flat, tri_cache_whole;
    intros (Hstore & Htri & Hbuf & Hout & Hattr & Hreq); cbn;
    try (by close_well_formed).
  - rewrite Hv in Hstore. destruct Hstore as [Hne Hrows].
    close_well_formed.
    + intros Heq. apply (f_equal length) in Heq.
      rewrite length_insert in Heq. by destruct rows.
    + by apply Forall_insert_row.
  - destruct reset; cbn; close_well_formed.
Qed.

Lemma blank_well_formed a : well_formed (blank a) (blank a).
Proof.
  unfold well_formed, store_flat, tri_cache_whole. cbn.
  close_well_formed.
Qed.

Lemma constructed_touched V a : touched (blank a) (self (constructed V a)).
Proof.
  unfold constructed. rewrite init_run.
  destruct V as [|v rest]; [apply touched_not|].
  destruct (sanitize_rule (v :: rest)) as [out|e] eqn:Hs;
    [|apply touched_not].
  destruct (sanitize_rule_width _ _ Hs) as [Hlen Hw].
  apply touched_stored; [|done]. by destruct out.
Qed.

Lemma reachable_well_formed triangulate p V a :
  well_formed (blank a) (self (after (run triangulate p) (constructed V a))).
Proof.
  apply (touched_well_formed _ (self (constructed V a))).
  - apply run_touched.
  - apply (touched_well_formed _ (blank a));
      [apply constructed_touched|apply blank_well_formed].
Qed.

(** X17: the vertex store is always flat.  Whatever was passed to the
    constructor and whatever script of calls, caught exceptions and edit
    sessions has run since, whether it returned or raised, the store is the
    empty array or a non-empty array whose rows all have width 2. *)
Theorem store_always_flat triangulate p V a :
  match _vertices (self (after (run triangulate p) (constructed V a))) with
  | NdEmpty => True
  | NdRows rows => rows ≠ [] ∧ Forall (λ r, length r = 2%nat) rows
  end.
Proof. by destruct (reachable_well_formed triangulate p V a) as [H _]. Qed.

(** X18: the triangulation is cached as a unit.  After any script the three
    fields [_tri_vertices], [_tri_edges] and [_tri_faces] are all absent or
    all present. *)
Theorem tri_cache_always_whole triangulate p V a :
  tri_cache_whole (self (after (run triangulate p) (constructed V a))).
Proof. by destruct (reachable_well_formed triangulate p V a) as (_ & H & _). Qed.

(** X19: the kind of a shape is fixed at construction.  No script changes
    what [kind] returns, and the shape requires triangulation exactly when
    its kind is 'poly'. *)
Theorem kind_never_changes triangulate p V a :
  let w := after (run triangulate p) (constructed V a) in
  result kind w = result kind (mkWorld (blank a) [])
  ∧ (_tri_required (self w) = true ↔ result kind w = Ok "poly"%string).
Proof.
  intros w.
  destruct (reachable_well_formed triangulate p V a)
    as (_ & _ & _ & _ & Hattr & Hreq).
  fold w in Hattr, Hreq.
  assert (Hhas : ∀ x, has x (self w) = has x (blank a))
    by (intros x; unfold has; by rewrite Hattr).
  unfold result, kind, bind, read, ret. cbn. rewrite !Hhas, Hreq.
  change (_tri_required (blank a))
    with (negb (has "point" (blank a)) && negb (has "path" (blank a))).
  destruct (has "point" (blank a)), (has "path" (blank a)); cbn;
    (split; [done|split; done]).
Qed.

(** X20: after any script, [add_vertex] succeeds exactly when the shape is
    in edit mode, and otherwise raises the edit-mode error: the buffer it
    appends to is never missing. *)
Theorem add_vertex_after_any_script triangulate p V a v :
  let w := after (run triangulate p) (constructed V a) in
  result (add_vertex v) w
  = if _in_edit_mode (self w) then Ok tt
    else Raise (ValueError "add_vertex only works in edit mode").
Proof.
  intros w.
  destruct (reachable_well_formed triangulate p V a)
    as (_ & _ & Hbuf & _).
  fold w in Hbuf. unfold result.
  destruct (_in_edit_mode (self w)) eqn:Hm.
  - destruct (Hbuf eq_refl) as [buf Hc].
    by rewrite (add_vertex_inside _ _ buf).
  - unfold add_vertex, _ensure_editable, bind, read. cbn. by rewrite Hm.
Qed.

(** ** Topology under a single-vertex update *)

(** X21: moving a vertex does not change the topology.  On a shape with
    nothing cached, [edges] read after a successful [update_vertex] is
    what [edges] was before it. *)
Theorem update_vertex_keeps_edges idx p w :
  _edges (self w) = None →
  result (update_vertex idx p) (after edges w) = Ok tt →
  result edges (after (update_vertex idx p) (after edges w)) = result edges w.
Proof.
  intros He Hu. unfold result, after in *.
  destruct (update_vertex idx p (edges w).2) as [[[]|x] w2] eqn:Hup; [|done].
  destruct (update_vertex_inv _ _ _ _ Hup) as (rows & rows' & Hv & Hlen & ->).
  cbn [fst snd].
  destruct (has "point" (self w)) eqn:Hp.
  - rewrite (edges_point w) in * by done. cbn [fst snd] in *.
    by rewrite edges_point.
  - destruct (_vertices (self w)) as [|rows0] eqn:Hv0.
    + rewrite (edges_empty_store w) in Hv by done. cbn in Hv. congruence.
    + rewrite (edges_recompute w rows0) in * by done. cbn in Hv.
      assert (rows0 = rows) as -> by congruence.
      rewrite (edges_recompute _ rows') by done. cbn.
      unfold len. by rewrite Hlen.
Qed.

Lemma update_vertex_keeps_edges_witness :
  result edges (after (update_vertex 2 [7; 7])
                  (after edges (constructed square "closed")))
  = result edges (constructed square "closed").
Proof.
  apply (update_vertex_keeps_edges 2 [7; 7] (constructed square "closed"));
    reflexivity.
Defined.
